(** * Request admission and execution orchestration of the three reference
      servers (deepseek, latentsync, zonos-tts)

    Shallow embedding of [src/reference/deepseek/server.py],
    [src/reference/latentsync/server.py] and
    [src/reference/zonos-tts/server.py].

    Sequential handlers are pure functions from the request (and the
    answers of the external collaborators: model engine, inference
    subprocess) to the HTTP response and the list of effects performed.
    The thread-pool based media-sync server is an interleaving transition
    system: one step function, a schedule is a list of labels. *)

From Stdlib Require Import ZArith QArith List String Ascii Bool Lia.
From stdpp Require Import base list.

Set Warnings "-register-all".
Local Open Scope string_scope.
Local Open Scope Z_scope.

(** ** Python values and exceptions shared by the three servers *)

Module Py.

(** JSON documents as Python sees them after [json.loads]: a dict is kept
    as its list of items (keys are unique after parsing). A JSON number
    with a fraction is a Python float, kept as the rational it denotes. *)
Inductive json : Type :=
| JNull
| JBool (b : bool)
| JInt (z : Z)
| JFloat (q : Q)
| JStr (s : string)
| JArr (l : list json)
| JObj (items : list (string * json)).

(** Python's truth value testing ([if not data]). *)
Definition truthy (v : json) : bool :=
  match v with
  | JNull => false
  | JBool b => b
  | JInt z => negb (z =? 0)
  | JFloat q => negb (Qnum q =? 0)
  | JStr s => negb (String.eqb s "")
  | JArr l => match l with [] => false | _ => true end
  | JObj items => match items with [] => false | _ => true end
  end.

(** [type(v).__name__] *)
Definition type_name (v : json) : string :=
  match v with
  | JNull => "NoneType"
  | JBool _ => "bool"
  | JInt _ => "int"
  | JFloat _ => "float"
  | JStr _ => "str"
  | JArr _ => "list"
  | JObj _ => "dict"
  end.

(** The exceptions the handlers can meet. All of them derive from
    [Exception], so every one is caught by [except Exception];
    [TimeoutError_] is the builtin [TimeoutError] (an [OSError] with
    errno ETIMEDOUT is one), the only one that [except TimeoutError]
    catches. *)
Inductive exn : Type :=
| AttributeError (ty attr : string)
| ValueError (msg : string)
| IndexError (msg : string)
| FileNotFoundError (path : string)
| BadRequest (msg : string)
| TimeoutError_ (msg : string)
| UnicodeDecodeError (msg : string)
| Exception_ (msg : string).

(** [isinstance(e, TimeoutError)] *)
Definition is_timeout_error (e : exn) : bool :=
  match e with
  | TimeoutError_ _ => true
  | _ => false
  end.

(** [str(e)] *)
Definition str_exn (e : exn) : string :=
  match e with
  | AttributeError ty attr =>
      "'" ++ ty ++ "' object has no attribute '" ++ attr ++ "'"
  | ValueError msg => msg
  | IndexError msg => msg
  | FileNotFoundError path =>
      "[Errno 2] No such file or directory: '" ++ path ++ "'"
  | BadRequest msg => msg
  | TimeoutError_ msg => msg
  | UnicodeDecodeError msg => msg
  | Exception_ msg => msg
  end.

Fixpoint assoc (k : string) (items : list (string * json)) : option json :=
  match items with
  | [] => None
  | (k', v) :: rest => if String.eqb k k' then Some v else assoc k rest
  end.

(** [d.get(k, default)]: only a dict has the method. *)
Definition dict_get (d : json) (k : string) (default : json) : exn + json :=
  match d with
  | JObj items =>
      inr (match assoc k items with Some v => v | None => default end)
  | _ => inl (AttributeError (type_name d) "get")
  end.

(** HTTP responses: a JSON document ([jsonify]) or a file ([send_file]). *)
Inductive Body : Type :=
| BJson (j : json)
| BFile (mimetype : string) (content : list Byte.byte).

Record Response : Type := mkResponse { status : Z; body : Body }.

Definition jsonify (j : json) (code : Z) : Response := mkResponse code (BJson j).

(** The error envelope of the spec:
    an object under "error" holding a "message" string and a "type" string. *)
Definition is_str (o : option json) : bool :=
  match o with Some (JStr _) => true | _ => false end.

Definition is_error_envelope (j : json) : bool :=
  match j with
  | JObj items =>
      match assoc "error" items with
      | Some (JObj e) => is_str (assoc "message" e) && is_str (assoc "type" e)
      | _ => false
      end
  | _ => false
  end.

(** A weaker shape: an object under "error" holding a "message" string. *)
Definition is_error_with_message (j : json) : bool :=
  match j with
  | JObj items =>
      match assoc "error" items with
      | Some (JObj e) => is_str (assoc "message" e)
      | _ => false
      end
  | _ => false
  end.

(** A weaker shape: an object with an "error" key. *)
Definition has_error_key (j : json) : bool :=
  match j with
  | JObj items => match assoc "error" items with Some _ => true | None => false end
  | _ => false
  end.

Definition ind (b : bool) : nat := if b then 1%nat else 0%nat.

Fixpoint count_if {A} (p : A -> bool) (l : list A) : nat :=
  match l with
  | [] => 0
  | x :: rest => ((if p x then 1 else 0) + count_if p rest)%nat
  end.

Definition body_json (r : Response) : option json :=
  match body r with BJson j => Some j | BFile _ _ => None end.

(** [j[k]] on a JSON object, for reading answers. *)
Definition jget (k : string) (j : json) : option json :=
  match j with
  | JObj items => assoc k items
  | _ => None
  end.

End Py.

(** ** deepseek/server.py *)

Module Deepseek.
Import Py.

Definition MODEL_ID : string := "deepseek-ai/DeepSeek-V3-0324".
Definition DEFAULT_MAX_TOKENS : Z := 150.

(** [SamplingParams(temperature=..., top_p=..., max_tokens=...)]: the
    handler passes on whatever the client sent. *)
Record SamplingParams : Type := mkSamplingParams
  { temperature : json; top_p : json; max_tokens : json }.

(** What the handler reads of a vLLM result. *)
Record CompletionOutput : Type := mkCompletionOutput
  { text : string; token_ids : list Z }.

Record RequestOutput : Type := mkRequestOutput
  { outputs : list CompletionOutput;
    finished : bool;
    prompt_token_count : Z (* prompt_token_ids.shape[0] *) }.

(** What the environment answers during one request: the values read
    from it, and what vLLM's [SamplingParams(...)] constructor does with
    the arguments of this request (it validates them and may raise). *)
Record Env : Type := mkEnv
  { request_id : string (* random_uuid() *);
    now : Z (* int(time.time()) *);
    sampling_params_raises : option exn (* raised by SamplingParams(...) *) }.

(** Effects of a request that matter to the orchestration layer: the one
    heavy operation is the call of the engine. *)
Inductive Event : Type :=
| EvGenerate (messages : json) (sp : SamplingParams).

(** Handler code runs in an exception monad that logs its effects. *)
Definition M (A : Type) : Type := (exn + A) * list Event.

Definition ret {A} (a : A) : M A := (inr a, []).
Definition raise {A} (e : exn) : M A := (inl e, []).
Definition lift {A} (r : exn + A) : M A := (r, []).
Definition bind {A B} (m : M A) (k : A -> M B) : M B :=
  match m with
  | (inl e, t) => (inl e, t)
  | (inr a, t) => let (r, t') := k a in (r, (t ++ t')%list)
  end.

Notation "'do' x <- m ; k" := (bind m (fun x => k))
  (at level 10, x name, m at level 100, k at level 200).

(** [health_check] *)
Definition health_check (engine_ready : bool) : Response :=
  if engine_ready
  then jsonify (JObj [("status", JStr "healthy"); ("model", JStr MODEL_ID)]) 200
  else jsonify (JObj [("status", JStr "initializing"); ("model", JStr MODEL_ID)]) 503.

(** [list_models] *)
Definition list_models (env : Env) : Response :=
  jsonify (JObj [("object", JStr "list");
                 ("data", JArr [JObj [("id", JStr "deepseek-v3");
                                      ("object", JStr "model");
                                      ("created", JInt (now env));
                                      ("owned_by", JStr "deepseek-ai")]])]) 200.

(** Lines 101-104 of [chat_completions]: the optional fields of the body,
    each with its default. *)
Record Parameters : Type := mkParameters
  { req_model : json; req_max_tokens : json;
    req_temperature : json; req_top_p : json }.

Definition optional_parameters (data : json) : exn + Parameters :=
  match dict_get data "model" (JStr "deepseek-v3") with
  | inl e => inl e
  | inr model =>
  match dict_get data "max_tokens" (JInt DEFAULT_MAX_TOKENS) with
  | inl e => inl e
  | inr max_tokens =>
  match dict_get data "temperature" (JFloat (7 # 10)) with
  | inl e => inl e
  | inr temperature =>
  match dict_get data "top_p" (JFloat (1 # 1)) with
  | inl e => inl e
  | inr top_p => inr (mkParameters model max_tokens temperature top_p)
  end end end end.

(** [SamplingParams(temperature=..., top_p=..., max_tokens=...)] *)
Definition make_sampling_params (env : Env) (params : Parameters)
  : exn + SamplingParams :=
  match sampling_params_raises env with
  | Some e => inl e
  | None =>
      inr (mkSamplingParams (req_temperature params) (req_top_p params)
                            (req_max_tokens params))
  end.

(** The dict [generate_completion] returns for the first output [o] of
    the first result. *)
Definition completion_json (env : Env) (result : RequestOutput)
  (o : CompletionOutput) : json :=
  JObj
    [("id", JStr ("chatcmpl-" ++ request_id env));
     ("object", JStr "chat.completion");
     ("created", JInt (now env));
     ("model", JStr "deepseek-v3");
     ("choices", JArr [JObj
        [("index", JInt 0);
         ("message", JObj [("role", JStr "assistant");
                           ("content", JStr (text o))]);
         ("finish_reason",
          JStr (if finished result then "stop" else "length"))]]);
     ("usage", JObj
        [("prompt_tokens", JInt (prompt_token_count result));
         ("completion_tokens", JInt (Z.of_nat (length (token_ids o))));
         ("total_tokens",
          JInt (prompt_token_count result
                + Z.of_nat (length (token_ids o))))])].

Section WithEngine.

(** [engine.generate], an external collaborator: it raises or yields the
    results. *)
Variable engine_generate : json -> SamplingParams -> exn + list RequestOutput.

Definition first_output (r : RequestOutput) : exn + CompletionOutput :=
  match outputs r with
  | [] => inl (IndexError "list index out of range")
  | o :: _ => inr o
  end.

(** [generate_completion]: the [except] clause prints and re-raises. *)
Definition generate_completion (env : Env) (messages : json) (sp : SamplingParams)
  : M json :=
  do results <- (engine_generate messages sp, [EvGenerate messages sp]) ;
  match results with
  | [] => raise (ValueError "No results from model")
  | result :: _ =>
      do o <- lift (first_output result) ;
      ret (completion_json env result o)
  end.

(** The [try] block of [chat_completions]. [request_body] is what
    [request.get_json(silent=True)] returns: [None] when the body does
    not parse. *)
Definition chat_completions_try (env : Env) (request_body : option json)
  : M Response :=
  match request_body with
  | None => ret (jsonify (JObj [("error", JObj [("message", JStr "Invalid JSON")])]) 400)
  | Some data =>
      if negb (truthy data)
      then ret (jsonify (JObj [("error", JObj [("message", JStr "Invalid JSON")])]) 400)
      else
        do messages <- lift (dict_get data "messages" (JArr [])) ;
        if negb (truthy messages)
        then ret (jsonify (JObj [("error", JObj [("message", JStr "No messages provided")])]) 400)
        else
          do params <- lift (optional_parameters data) ;
          do sampling_params <- lift (make_sampling_params env params) ;
          do response <- generate_completion env messages sampling_params ;
          ret (jsonify response 200)
  end.

(** [chat_completions]: readiness gate, then the [try] block under
    [except Exception]. *)
Definition chat_completions (engine_ready : bool) (env : Env)
  (request_body : option json) : Response * list Event :=
  if negb engine_ready
  then (jsonify (JObj [("error", JObj
          [("message", JStr "Model is still initializing, please try again in a few minutes");
           ("type", JStr "server_error")])]) 503, [])
  else
    match chat_completions_try env request_body with
    | (inr r, t) => (r, t)
    | (inl e, t) =>
        (jsonify (JObj [("error", JObj [("message", JStr (str_exn e));
                                        ("type", JStr "server_error")])]) 500, t)
    end.

(** The process: [engine_ready] is a [threading.Event] that starts unset;
    [init_engine] sets it at its end, and nothing ever clears it. *)
Inductive Incoming : Type :=
| InitEngineDone                       (* init_engine reaches engine_ready.set() *)
| GetHealth
| GetModels (env : Env)
| PostChat (env : Env) (request_body : option json).

Definition serve_one (engine_ready : bool) (i : Incoming)
  : bool * option Response :=
  match i with
  | InitEngineDone => (true, None)
  | GetHealth => (engine_ready, Some (health_check engine_ready))
  | GetModels env => (engine_ready, Some (list_models env))
  | PostChat env b => (engine_ready, Some (fst (chat_completions engine_ready env b)))
  end.

(** Responses to a sequence of incoming events, in order ([None] for the
    initialisation event, which answers nobody). *)
Fixpoint serve (engine_ready : bool) (l : list Incoming) : list (option Response) :=
  match l with
  | [] => []
  | i :: rest =>
      let (ready', r) := serve_one engine_ready i in
      r :: serve ready' rest
  end.

Fixpoint ready_after (engine_ready : bool) (l : list Incoming) : bool :=
  match l with
  | [] => engine_ready
  | i :: rest => ready_after (fst (serve_one engine_ready i)) rest
  end.

End WithEngine.

(** The body of the 503 answer of [chat_completions]. *)
Definition not_ready_body : json :=
  JObj [("error", JObj
    [("message", JStr "Model is still initializing, please try again in a few minutes");
     ("type", JStr "server_error")])].

(** The 500 answer of [chat_completions] for the exception [e]. *)
Definition error_500 (e : exn) : Response :=
  jsonify (JObj [("error", JObj [("message", JStr (str_exn e));
                                 ("type", JStr "server_error")])]) 500.

(** [data.get(k, d)] on the items of an object body. *)
Definition field_or (items : list (string * json)) (k : string) (d : json) : json :=
  match assoc k items with Some v => v | None => d end.

(** A stand-in engine for concrete runs: one finished result. *)
Definition echo_engine (messages : json) (sp : SamplingParams)
  : exn + list RequestOutput :=
  inr [mkRequestOutput [mkCompletionOutput "ok" [1; 2]] true 3].

Definition failing_engine (messages : json) (sp : SamplingParams)
  : exn + list RequestOutput :=
  inl (Exception_ "CUDA out of memory").

Definition env0 : Env := mkEnv "abc" 1700000000 None.

(** The same request environment, with a constructor that rejects the
    arguments. *)
Definition env_rejecting : Env :=
  mkEnv "abc" 1700000000
        (Some (ValueError "temperature must be non-negative, got -1.")).

(** *** The process: [init_engine] as a thread of two steps *)

Definition Engine : Type := json -> SamplingParams -> exn + list RequestOutput.

(** Where the initialisation thread is. *)
Inductive InitPC : Type :=
| InitRunning     (* before [AsyncLLMEngine.from_engine_args] returns *)
| InitAssigned    (* the global [engine] is assigned, the event not yet set *)
| InitFinished    (* [engine_ready.set()] done *)
| InitDied.       (* [from_engine_args] raised: the daemon thread is gone *)

Record Proc : Type := mkProc
  { proc_engine : option Engine;   (* the global [engine], [None] at start *)
    proc_ready : bool;             (* [engine_ready.is_set()] *)
    init_pc : InitPC }.

Definition proc_start : Proc := mkProc None false InitRunning.

(** One step of [init_engine]; [from_engine_args] is what the engine
    constructor does. *)
Definition init_step (from_engine_args : exn + Engine) (p : Proc) : Proc :=
  match init_pc p with
  | InitRunning =>
      match from_engine_args with
      | inl _ => mkProc (proc_engine p) (proc_ready p) InitDied
      | inr e => mkProc (Some e) (proc_ready p) InitAssigned
      end
  | InitAssigned => mkProc (proc_engine p) true InitFinished
  | _ => p
  end.

(** [engine.generate] on the global: on [None] the attribute lookup
    raises. *)
Definition global_generate (p : Proc) : Engine :=
  match proc_engine p with
  | Some e => e
  | None => fun _ _ => inl (AttributeError "NoneType" "generate")
  end.

Inductive ProcEvent : Type :=
| PInitStep
| PHealth
| PModels (env : Env)
| PChat (env : Env) (request_body : option json).

Definition proc_one (from_engine_args : exn + Engine) (p : Proc) (ev : ProcEvent)
  : Proc * option Response :=
  match ev with
  | PInitStep => (init_step from_engine_args p, None)
  | PHealth => (p, Some (health_check (proc_ready p)))
  | PModels env => (p, Some (list_models env))
  | PChat env b =>
      (p, Some (fst (chat_completions (global_generate p) (proc_ready p) env b)))
  end.

Fixpoint proc_run (from_engine_args : exn + Engine) (p : Proc)
  (l : list ProcEvent) : Proc * list (option Response) :=
  match l with
  | [] => (p, [])
  | ev :: rest =>
      let (p', r) := proc_one from_engine_args p ev in
      let (p'', rs) := proc_run from_engine_args p' rest in
      (p'', r :: rs)
  end.

Definition is_init (i : Incoming) : bool :=
  match i with InitEngineDone => true | _ => false end.

Definition invalid_json_response : Response :=
  jsonify (JObj [("error", JObj [("message", JStr "Invalid JSON")])]) 400.

(** The initialisation thread sets the flag only after the engine. *)
Definition proc_inv (from_engine_args : exn + Engine) (p : Proc)
  : Prop :=
  match init_pc p with
  | InitRunning | InitDied =>
      proc_ready p = false /\ proc_engine p = None
  | InitAssigned =>
      proc_ready p = false
      /\ exists e, from_engine_args = inr e /\ proc_engine p = Some e
  | InitFinished =>
      proc_ready p = true
      /\ exists e, from_engine_args = inr e /\ proc_engine p = Some e
  end
  /\ (init_pc p = InitDied -> exists x, from_engine_args = inl x).

Definition empty_engine : Engine := fun _ _ => inr [].

End Deepseek.


(** ** zonos-tts/server.py *)

Module Zonos.
Import Py.

(** A Python [str] is a sequence of code points. A text is kept here as
    the bytes of its UTF-8 encoding (a lone surrogate, which a JSON
    escape can produce, in the three-byte form of its value);
    [code_points] gives the sequence back. Bytes that encode no code
    point (a stray continuation byte, a truncated or overlong form, a
    value above U+10FFFF) are read as U+FFFD, which is not whitespace. *)
Definition REPLACEMENT : N := 65533.

Definition continuation (c : ascii) : option N :=
  let n := N_of_ascii c in
  if ((128 <=? n) && (n <? 192))%N then Some (n - 128)%N else None.

Definition in_range (lo hi cp : N) : N :=
  if ((lo <=? cp) && (cp <=? hi))%N then cp else REPLACEMENT.

Fixpoint code_points (s : string) : list N :=
  match s with
  | EmptyString => []
  | String c rest =>
      let n := N_of_ascii c in
      if (n <? 128)%N then n :: code_points rest
      else if ((192 <=? n) && (n <? 224))%N then
        match rest with
        | String c1 rest1 =>
            match continuation c1 with
            | Some a =>
                in_range 128 2047 ((n - 192) * 64 + a)%N :: code_points rest1
            | None => REPLACEMENT :: code_points rest
            end
        | EmptyString => REPLACEMENT :: code_points rest
        end
      else if ((224 <=? n) && (n <? 240))%N then
        match rest with
        | String c1 (String c2 rest2) =>
            match continuation c1, continuation c2 with
            | Some a, Some b =>
                in_range 2048 65535 (((n - 224) * 64 + a) * 64 + b)%N
                :: code_points rest2
            | _, _ => REPLACEMENT :: code_points rest
            end
        | _ => REPLACEMENT :: code_points rest
        end
      else if ((240 <=? n) && (n <? 248))%N then
        match rest with
        | String c1 (String c2 (String c3 rest3)) =>
            match continuation c1, continuation c2, continuation c3 with
            | Some a, Some b, Some d =>
                in_range 65536 1114111
                  ((((n - 240) * 64 + a) * 64 + b) * 64 + d)%N
                :: code_points rest3
            | _, _, _ => REPLACEMENT :: code_points rest
            end
        | _ => REPLACEMENT :: code_points rest
        end
      else REPLACEMENT :: code_points rest
  end.

(** [str.isspace] on one code point, which is what [str.strip] without
    argument removes: U+0009-U+000D, U+001C-U+0020, U+0085, U+00A0,
    U+1680, U+2000-U+200A, U+2028, U+2029, U+202F, U+205F, U+3000. *)
Definition is_space (cp : N) : bool :=
  ((9 <=? cp) && (cp <=? 13) || (28 <=? cp) && (cp <=? 32)
   || (cp =? 133) || (cp =? 160) || (cp =? 5760)
   || (8192 <=? cp) && (cp <=? 8202)
   || (cp =? 8232) || (cp =? 8233) || (cp =? 8239) || (cp =? 8287)
   || (cp =? 12288))%N.

Fixpoint lstrip (l : list N) : list N :=
  match l with
  | [] => []
  | c :: rest => if is_space c then lstrip rest else l
  end.

(** [text.strip()], on the code points of the text. *)
Definition strip (l : list N) : list N :=
  rev (lstrip (rev (lstrip l))).

(** [text.strip()] on whatever [data.get('text', '')] returned. *)
Definition py_strip (v : json) : exn + list N :=
  match v with
  | JStr s => inr (strip (code_points s))
  | _ => inl (AttributeError (type_name v) "strip")
  end.

(** Effects on the per-request temporary file. The handler has no call
    that removes the file: [EvUnlink] is what a release would be. *)
Inductive Event : Type :=
| EvNamedTemporaryFile (path : string)          (* created, delete=False *)
| EvGenerate (text : string)                    (* the model calls *)
| EvSave (path : string) (wav : list Byte.byte) (* torchaudio.save *)
| EvSendFile (path : string)
| EvUnlink (path : string).

Definition is_create (e : Event) : bool :=
  match e with EvNamedTemporaryFile _ => true | _ => false end.
Definition is_release (e : Event) : bool :=
  match e with EvUnlink _ => true | _ => false end.

Definition M (A : Type) : Type := (exn + A) * list Event.
Definition ret {A} (a : A) : M A := (inr a, []).
Definition lift {A} (r : exn + A) : M A := (r, []).
Definition emit (e : Event) : M unit := (inr tt, [e]).
Definition bind {A B} (m : M A) (k : A -> M B) : M B :=
  match m with
  | (inl e, t) => (inl e, t)
  | (inr a, t) => let (r, t') := k a in (r, (t ++ t')%list)
  end.

Notation "'do' x <- m ; k" := (bind m (fun x => k))
  (at level 10, x name, m at level 100, k at level 200).

Section WithModel.

(** The model pipeline from [make_cond_dict] to [autoencoder.decode]: it
    raises or yields the wave data to save. *)
Variable synthesize : string -> exn + list Byte.byte.

(** The [try] block of [text_to_speech]. [request_json] is the outcome of
    [request.get_json()], [tmp] the name of the temporary file. *)
Definition text_to_speech_try (request_json : exn + json) (tmp : string)
  : M Response :=
  do data <- lift request_json ;
  do text <- lift (dict_get data "text" (JStr "")) ;
  do stripped <- lift (py_strip text) ;
  match stripped with
  | [] => ret (jsonify (JObj [("error", JStr "Empty text provided")]) 400)
  | _ :: _ =>
    do _ <- emit (EvNamedTemporaryFile tmp) ;
    let output_path := tmp in
    let spoken := match text with JStr s => s | _ => "" end in
    do wav <- (synthesize spoken, [EvGenerate spoken]) ;
    do _ <- emit (EvSave output_path wav) ;
    do _ <- emit (EvSendFile output_path) ;
    ret (mkResponse 200 (BFile "audio/wav" wav))
  end.

(** [text_to_speech] *)
Definition text_to_speech (request_json : exn + json) (tmp : string)
  : Response * list Event :=
  match text_to_speech_try request_json tmp with
  | (inr r, t) => (r, t)
  | (inl e, t) => (jsonify (JObj [("error", JStr (str_exn e))]) 500, t)
  end.

End WithModel.

Definition health_check : Response :=
  jsonify (JObj [("status", JStr "healthy")]) 200.

Definition beep (text : string) : exn + list Byte.byte :=
  inr [Byte.x52; Byte.x49; Byte.x46; Byte.x46].

(** Every code point of the text is whitespace. *)
Definition all_space (s : string) : bool :=
  forallb is_space (code_points s).

(** U+00A0 U+3000 and a line feed: a text without one ASCII letter or
    ASCII blank before the line feed. *)
Definition nbsp_text : string :=
  String (ascii_of_nat 194) (String (ascii_of_nat 160)
    (String (ascii_of_nat 227) (String (ascii_of_nat 128)
      (String (ascii_of_nat 128) (String (ascii_of_nat 10) ""))))).

(** The text a JSON object body carries: [data.get('text', '')]. *)
Definition text_of (items : list (string * json)) : json :=
  match assoc "text" items with Some v => v | None => JStr "" end.

Definition empty_text_response : Response :=
  jsonify (JObj [("error", JStr "Empty text provided")]) 400.

Definition failing_model (text : string) : exn + list Byte.byte :=
  inl (Exception_ "CUDA out of memory").

End Zonos.


(** ** latentsync/server.py *)

Module Latentsync.
Import Py.

Definition MAX_WORKERS : nat := 4.      (* ThreadPoolExecutor(max_workers=4) *)
Definition GPU_PERMITS : nat := 2.      (* threading.Semaphore(2) *)

Definition Payload : Type := list Byte.byte.

(** What the inference subprocess did: its return code, what
    [stderr.decode()] gives (the text, or the [UnicodeDecodeError] it
    raises on bytes that are not UTF-8) and the file it left at
    [--video_out_path], if any. *)
Record ProcResult : Type := mkProcResult
  { returncode : Z; stderr : exn + string; written : option Payload }.

(** One request with the answers of its environment: which file parts it
    carries, the directory [mkdtemp] returns, the decimal [id(video_file)]
    and what [Popen(...).communicate()] does for it. *)
Record Request : Type := mkRequest
  { has_video : bool;
    has_audio : bool;
    temp_dir : string;
    video_id : string;
    inference : exn + ProcResult }.

Definition output_path (q : Request) : string :=
  temp_dir q ++ "/output_video_" ++ video_id q ++ ".mp4".

(** The body of [process_video] between acquire and release: the value it
    returns ([True]) or the exception it raises. *)
Definition process_video_body (inf : exn + ProcResult) : exn + unit :=
  match inf with
  | inl e => inl e
  | inr p =>
      if returncode p =? 0 then inr tt
      else match stderr p with
           | inl e => inl e
           | inr text => inl (Exception_ ("Inference failed: " ++ text))
           end
  end.

(** The temporary directory of a request. *)
Inductive Workspace : Type :=
| WsAbsent                                  (* not created yet, or removed *)
| WsPresent (output : option Payload).      (* exists; content of output_path *)

(** Where the work item of a request is. *)
Inductive WorkerPC : Type :=
| WNone                      (* nothing submitted *)
| WQueued                    (* in the executor's queue *)
| WAcquire                   (* a pool thread is at [with gpu_semaphore] *)
| WBody                      (* permit held, before the subprocess *)
| WFinally (o : exn + unit)  (* permit held, in [finally] *)
| WReturn (o : exn + unit)   (* permit released, future not yet resolved *)
| WCallbacks                 (* future resolved, done-callbacks not yet run *)
| WDone.

(** Where the request handler [sync_video_audio] is. *)
Inductive HandlerPC : Type :=
| HStart                     (* request received *)
| HSubmit                    (* files saved, before executor.submit *)
| HAddCallback               (* before future.add_done_callback *)
| HWait                      (* in future.result(timeout=600) *)
| HSend                      (* before send_file *)
| HDone (r : Response).      (* response returned *)

Record Req : Type := mkReq
  { input : Request;
    hpc : HandlerPC;
    wpc : WorkerPC;
    fut : option (exn + unit);    (* the future: pending or resolved *)
    cb_registered : bool;         (* cleanup_callback in the future's list *)
    ws : Workspace;
    ws_created : nat;             (* calls of mkdtemp *)
    ws_released : nat;            (* calls of shutil.rmtree(temp_dir) *)
    permits_acquired : nat;
    permits_released : nat }.

Record State : Type := mkState { sem : nat; reqs : list Req }.

Definition new_req (q : Request) : Req :=
  mkReq q HStart WNone None false WsAbsent 0 0 0 0.

Definition init (qs : list Request) : State :=
  mkState GPU_PERMITS (map new_req qs).

Definition set_hpc (h : HandlerPC) (r : Req) : Req :=
  mkReq (input r) h (wpc r) (fut r) (cb_registered r) (ws r)
        (ws_created r) (ws_released r) (permits_acquired r) (permits_released r).

Definition set_wpc (w : WorkerPC) (r : Req) : Req :=
  mkReq (input r) (hpc r) w (fut r) (cb_registered r) (ws r)
        (ws_created r) (ws_released r) (permits_acquired r) (permits_released r).

(** [cleanup_callback]: [shutil.rmtree(temp_dir, ignore_errors=True)]. *)
Definition cleanup_callback (r : Req) : Req :=
  mkReq (input r) (hpc r) (wpc r) (fut r) (cb_registered r) WsAbsent
        (ws_created r) (S (ws_released r)) (permits_acquired r) (permits_released r).

(** A pool thread is occupied by the item. *)
Definition busy (r : Req) : bool :=
  match wpc r with
  | WAcquire | WBody | WFinally _ | WReturn _ | WCallbacks => true
  | _ => false
  end.

(** The item is inside [with gpu_semaphore]. *)
Definition holding (r : Req) : bool :=
  match wpc r with
  | WBody | WFinally _ => true
  | _ => false
  end.

(** What the subprocess leaves in the directory. *)
Definition write_output (w : Workspace) (inf : exn + ProcResult) : Workspace :=
  match w, inf with
  | WsPresent old, inr p =>
      WsPresent (match written p with Some c => Some c | None => old end)
  | _, _ => w
  end.

(** One step of the work item of [r]; [sem] is the semaphore's value and
    [nbusy] the number of occupied pool threads. [None]: the item cannot
    move (all pool threads occupied, semaphore at zero, nothing to do).
    - [WQueued]: a free pool thread takes the item;
    - [WAcquire]: [gpu_semaphore.acquire()], blocking at zero;
    - [WBody]: the [try] block, from [empty_cache] to [return True] or
      the raised exception;
    - [WFinally]: the [finally] block, then the release of the permit
      by the [with] statement, on either outcome;
    - [WReturn]: the executor stores the result or the exception in the
      future and wakes the waiters;
    - [WCallbacks]: the pool thread calls the callbacks registered so
      far. *)
Definition worker_step (sem nbusy : nat) (r : Req) : option (Req * nat) :=
  match wpc r with
  | WNone => None
  | WQueued =>
      if (nbusy <? MAX_WORKERS)%nat then Some (set_wpc WAcquire r, sem) else None
  | WAcquire =>
      match sem with
      | O => None
      | S sem' =>
          Some (mkReq (input r) (hpc r) WBody (fut r) (cb_registered r) (ws r)
                      (ws_created r) (ws_released r)
                      (S (permits_acquired r)) (permits_released r), sem')
      end
  | WBody =>
      Some (mkReq (input r) (hpc r)
                  (WFinally (process_video_body (inference (input r))))
                  (fut r) (cb_registered r)
                  (write_output (ws r) (inference (input r)))
                  (ws_created r) (ws_released r)
                  (permits_acquired r) (permits_released r), sem)
  | WFinally o =>
      Some (mkReq (input r) (hpc r) (WReturn o) (fut r) (cb_registered r) (ws r)
                  (ws_created r) (ws_released r)
                  (permits_acquired r) (S (permits_released r)), S sem)
  | WReturn o =>
      Some (mkReq (input r) (hpc r) WCallbacks (Some o) (cb_registered r) (ws r)
                  (ws_created r) (ws_released r)
                  (permits_acquired r) (permits_released r), sem)
  | WCallbacks =>
      Some (set_wpc WDone (if cb_registered r then cleanup_callback r else r), sem)
  | WDone => None
  end.

Definition error_response (msg : string) (code : Z) : Response :=
  jsonify (JObj [("error", JStr msg)]) code.

(** [send_file(output_path, mimetype='video/mp4', ...)] inside the outer
    [try]: a missing file raises [FileNotFoundError]. *)
Definition send_file (r : Req) : Response :=
  match ws r with
  | WsPresent (Some content) => mkResponse 200 (BFile "video/mp4" content)
  | _ => error_response (str_exn (FileNotFoundError (output_path (input r)))) 500
  end.

(** One step of the handler of [r], other than the expiry of its wait.
    [None]: the handler is blocked in [future.result] or has returned.
    - [HStart]: the test on [request.files], then [mkdtemp] and the two
      [save] calls (taken to succeed);
    - [HSubmit]: [executor.submit(process_video, ...)];
    - [HAddCallback]: [future.add_done_callback(cleanup_callback)], which
      under the future's lock either appends the callback (future
      pending) or, the future being resolved, calls it at once in the
      handler's thread;
    - [HWait]: [future.result] returns or re-raises what the future
      holds; a re-raised [TimeoutError] is caught by the inner
      [except TimeoutError] like an expiry of the wait (504), any other
      exception by the outer [except Exception] (500);
    - [HSend]: [send_file]. *)
Definition handler_step (r : Req) : option Req :=
  match hpc r with
  | HStart =>
      if negb (has_video (input r)) || negb (has_audio (input r))
      then Some (set_hpc (HDone (error_response "Both video and audio files are required" 400)) r)
      else Some (mkReq (input r) HSubmit (wpc r) (fut r) (cb_registered r)
                       (WsPresent None) (S (ws_created r)) (ws_released r)
                       (permits_acquired r) (permits_released r))
  | HSubmit => Some (set_hpc HAddCallback (set_wpc WQueued r))
  | HAddCallback =>
      match fut r with
      | None =>
          Some (mkReq (input r) HWait (wpc r) (fut r) true (ws r)
                      (ws_created r) (ws_released r)
                      (permits_acquired r) (permits_released r))
      | Some _ => Some (set_hpc HWait (cleanup_callback r))
      end
  | HWait =>
      match fut r with
      | None => None
      | Some (inr _) => Some (set_hpc HSend r)
      | Some (inl e) =>
          if is_timeout_error e
          then Some (set_hpc (HDone (error_response "Processing timeout" 504)) r)
          else Some (set_hpc (HDone (error_response (str_exn e) 500)) r)
      end
  | HSend => Some (set_hpc (HDone (send_file r)) r)
  | HDone _ => None
  end.

(** The wait of [future.result(timeout=600)] expires: possible only while
    the future is pending. Nothing but the handler's own position
    changes. The exception raised is the one [except TimeoutError]
    names, as in Python 3.11 and later, where the executor's timeout
    exception is the builtin one. *)
Definition timeout_step (r : Req) : option Req :=
  match hpc r, fut r with
  | HWait, None => Some (set_hpc (HDone (error_response "Processing timeout" 504)) r)
  | _, _ => None
  end.

Inductive Label : Type :=
| Worker (i : nat)
| Handler (i : nat)
| Timeout (i : nat).

Definition step (l : Label) (s : State) : option State :=
  match l with
  | Worker i =>
      r ← reqs s !! i;
      '(r', sem') ← worker_step (sem s) (count_if busy (reqs s)) r;
      Some (mkState sem' (<[i := r']> (reqs s)))
  | Handler i =>
      r ← reqs s !! i;
      r' ← handler_step r;
      Some (mkState (sem s) (<[i := r']> (reqs s)))
  | Timeout i =>
      r ← reqs s !! i;
      r' ← timeout_step r;
      Some (mkState (sem s) (<[i := r']> (reqs s)))
  end.

(** A schedule is a list of labels; a label that cannot move is skipped. *)
Definition step_or_stay (s : State) (l : Label) : State :=
  match step l s with Some s' => s' | None => s end.

Definition exec (sched : list Label) (s : State) : State :=
  fold_left step_or_stay sched s.

(** The response of request [i], once returned. *)
Definition response (s : State) (i : nat) : option Response :=
  match reqs s !! i with
  | Some r => match hpc r with HDone resp => Some resp | _ => None end
  | None => None
  end.

(** [health_check] *)
Definition health_check : Response :=
  jsonify (JObj [("status", JStr "healthy")]) 200.

(** *** Invariants of the transition system *)

Definition outcome (r : Req) : exn + unit :=
  process_video_body (inference (input r)).

(** Permit counters and the future follow the position of the work item. *)
Definition worker_inv (r : Req) : Prop :=
  match wpc r with
  | WNone | WQueued | WAcquire =>
      permits_acquired r = 0%nat /\ permits_released r = 0%nat /\ fut r = None
  | WBody =>
      permits_acquired r = 1%nat /\ permits_released r = 0%nat /\ fut r = None
  | WFinally o =>
      permits_acquired r = 1%nat /\ permits_released r = 0%nat /\ fut r = None
      /\ o = outcome r
  | WReturn o =>
      permits_acquired r = 1%nat /\ permits_released r = 1%nat /\ fut r = None
      /\ o = outcome r
  | WCallbacks | WDone =>
      permits_acquired r = 1%nat /\ permits_released r = 1%nat
      /\ fut r = Some (outcome r)
  end.

(** After [add_done_callback]: either the callback sits in the future's
    list and has run iff the pool thread ran the callbacks, or the future
    was already resolved and the handler ran it on the spot. *)
Definition registered_inv (r : Req) : Prop :=
  if cb_registered r
  then ws_released r = match wpc r with WDone => 1%nat | _ => 0%nat end
  else ws_released r = 1%nat /\ fut r <> None.

Definition cleanup_inv (r : Req) : Prop :=
  match hpc r with
  | HStart =>
      wpc r = WNone /\ cb_registered r = false /\ ws r = WsAbsent
      /\ ws_created r = 0%nat /\ ws_released r = 0%nat
  | HSubmit =>
      wpc r = WNone /\ cb_registered r = false /\ ws r = WsPresent None
      /\ ws_created r = 1%nat /\ ws_released r = 0%nat
  | HAddCallback =>
      wpc r <> WNone /\ cb_registered r = false
      /\ ws_created r = 1%nat /\ ws_released r = 0%nat
  | HWait | HSend =>
      wpc r <> WNone /\ ws_created r = 1%nat /\ registered_inv r
  | HDone _ =>
      match wpc r with
      | WNone =>
          cb_registered r = false /\ ws r = WsAbsent
          /\ ws_created r = 0%nat /\ ws_released r = 0%nat
      | _ => ws_created r = 1%nat /\ registered_inv r
      end
  end.

(** The responses a request can have received. *)
Definition response_inv (r : Req) : Prop :=
  match hpc r with
  | HSend => fut r = Some (inr tt)
  | HDone resp =>
      match wpc r with
      | WNone =>
          resp = error_response "Both video and audio files are required" 400
          /\ (has_video (input r) = false \/ has_audio (input r) = false)
      | _ =>
          resp = error_response "Processing timeout" 504
          \/ (exists e, fut r = Some (inl e) /\ is_timeout_error e = false
                        /\ resp = error_response (str_exn e) 500)
          \/ (fut r = Some (inr tt)
              /\ (resp = error_response
                           (str_exn (FileNotFoundError (output_path (input r)))) 500
                  \/ exists p c, inference (input r) = inr p
                                 /\ written p = Some c
                                 /\ resp = mkResponse 200 (BFile "video/mp4" c)))
      end
  | _ => True
  end.

(** The directory exists from [mkdtemp] to [rmtree]; an output file in it
    is what the subprocess wrote. *)
Definition ws_inv (r : Req) : Prop :=
  match ws r with
  | WsAbsent => ws_created r = ws_released r
  | WsPresent out =>
      ws_created r = 1%nat /\ ws_released r = 0%nat
      /\ match out with
         | Some c => exists p, inference (input r) = inr p /\ written p = Some c
         | None => True
         end
  end.

Definition req_inv (r : Req) : Prop :=
  worker_inv r /\ cleanup_inv r /\ response_inv r /\ ws_inv r.

Definition state_inv (s : State) : Prop :=
  (sem s + count_if holding (reqs s) = GPU_PERMITS)%nat
  /\ Forall req_inv (reqs s).

(** The work item has left the [with gpu_semaphore] block. *)
Definition left_with_block (r : Req) : bool :=
  match wpc r with
  | WReturn _ | WCallbacks | WDone => true
  | _ => false
  end.

(** Acquire and release are paired: at most one acquire per job, a permit
    is outstanding exactly inside the block, and once the block is left
    the one acquire has met its one release. *)
Definition permit_ok (r : Req) : Prop :=
  (permits_released r <= permits_acquired r)%nat
  /\ (permits_acquired r <= 1)%nat
  /\ (holding r = true <->
      permits_acquired r = 1%nat /\ permits_released r = 0%nat)
  /\ (left_with_block r = true ->
      permits_acquired r = 1%nat /\ permits_released r = 1%nat).

(** *** Draining: a schedule without timeouts that finishes every request *)

Definition hrank (h : HandlerPC) : nat :=
  match h with
  | HStart => 12 | HSubmit => 11 | HAddCallback => 3
  | HWait => 2 | HSend => 1 | HDone _ => 0
  end.

Definition wrank (w : WorkerPC) : nat :=
  match w with
  | WNone => 0 | WQueued => 6 | WAcquire => 5 | WBody => 4
  | WFinally _ => 3 | WReturn _ => 2 | WCallbacks => 1 | WDone => 0
  end.

(** Number of moves a request can still make, at most. *)
Definition rank_req (r : Req) : nat := (hrank (hpc r) + wrank (wpc r))%nat.

Fixpoint sum_with {A} (f : A -> nat) (l : list A) : nat :=
  match l with
  | [] => 0
  | x :: rest => (f x + sum_with f rest)%nat
  end.

Definition rank (s : State) : nat := sum_with rank_req (reqs s).

(** The handler has answered and the work item, if any, is over. *)
Definition finished (r : Req) : bool :=
  match hpc r, wpc r with
  | HDone _, WNone | HDone _, WDone => true
  | _, _ => false
  end.

(** The work item is over and the handler is past [add_done_callback]. *)
Definition settled (r : Req) : bool :=
  match wpc r, hpc r with
  | WDone, HWait | WDone, HSend | WDone, HDone _ => true
  | _, _ => false
  end.

Definition enabled (s : State) (l : Label) : bool :=
  match step l s with Some _ => true | None => false end.

(** Handler and worker moves only: no wait is made to expire. *)
Definition candidates (s : State) : list Label :=
  (map Handler (seq 0 (length (reqs s)))
   ++ map Worker (seq 0 (length (reqs s))))%list.

Definition next_label (s : State) : option Label :=
  List.find (enabled s) (candidates s).

Fixpoint drain_sched (fuel : nat) (s : State) : list Label :=
  match fuel with
  | O => []
  | S fuel' =>
      match next_label s with
      | Some l => l :: drain_sched fuel' (step_or_stay s l)
      | None => []
      end
  end.

(** The temporary directory is removed at most once, never before the
    job's future is resolved, and exactly once when the request is
    settled. *)
Definition ws_ok (r : Req) : Prop :=
  (ws_released r <= 1)%nat
  /\ (ws_released r <= ws_created r)%nat
  /\ (ws_released r = 1%nat -> fut r <> None)
  /\ (settled r = true -> ws_created r = 1%nat /\ ws_released r = 1%nat).

(** After a timeout response with the callback registered: both stay so,
    and the request keeps its input. *)
Definition timed_out_with_callback (q : Request) (r : Req) : Prop :=
  hpc r = HDone (error_response "Processing timeout" 504)
  /\ cb_registered r = true /\ input r = q.

(** The schedule never lets the wait of request [i] expire. *)
Definition no_timeout (i : nat) (sched : list Label) : Prop :=
  forall l, In l sched -> l <> Timeout i.

Definition timeout_response : Response :=
  error_response "Processing timeout" 504.

(** Concrete inputs for runs. *)
Definition mp4 : Payload := [Byte.x00; Byte.x01; Byte.x02].

Definition good_request : Request :=
  mkRequest true true "/tmp/latentsync_ab" "140" (inr (mkProcResult 0 (inr "") (Some mp4))).

(** [Popen] fails with errno ETIMEDOUT: the job raises the builtin
    [TimeoutError]. *)
Definition timing_out_request : Request :=
  mkRequest true true "/tmp/latentsync_gh" "143"
            (inl (TimeoutError_ "[Errno 110] Connection timed out")).

Definition bad_request : Request :=
  mkRequest true true "/tmp/latentsync_cd" "141" (inr (mkProcResult 1 (inr "CUDA error") None)).

(** Three simultaneous jobs, the second failing: two are inside the
    block, the third waits at the semaphore. *)
Definition c1_sched : list Label :=
  [Handler 0; Handler 1; Handler 2; Handler 0; Handler 1; Handler 2;
   Worker 0; Worker 1; Worker 2; Worker 0; Worker 1; Worker 2]%nat.

(** The handler times out, the job fails later: one removal, after the
    job. *)
Definition c2_sched : list Label :=
  [Handler 0; Handler 0; Handler 0; Timeout 0;
   Worker 0; Worker 0; Worker 0; Worker 0; Worker 0; Worker 0]%nat.

Definition c2_req : Req :=
  mkReq bad_request (HDone (error_response "Processing timeout" 504)) WDone
        (Some (inl (Exception_ "Inference failed: CUDA error")))
        true WsAbsent 1 1 1 1.

Definition c3_sched : list Label :=
  [Handler 0; Handler 0; Handler 0; Worker 0; Worker 0]%nat.

Definition c3_req : Req :=
  mkReq good_request HWait WBody None true (WsPresent None) 1 0 1 0.

(** The failing job, handler still waiting when the future resolves. *)
Definition c8_sched : list Label :=
  [Handler 0; Handler 0; Handler 0;
   Worker 0; Worker 0; Worker 0; Worker 0; Worker 0]%nat.

Definition c8_req : Req :=
  mkReq bad_request HWait WCallbacks
        (Some (inl (Exception_ "Inference failed: CUDA error")))
        true (WsPresent None) 1 0 1 1.

(** *** Further notions used by the properties beyond the claims *)

(** Number of labels of a schedule that could move. *)
Fixpoint moves (sched : list Label) (s : State) : nat :=
  match sched with
  | [] => 0
  | l :: rest =>
      match step l s with
      | Some s' => S (moves rest s')
      | None => moves rest s
      end
  end.

(** [os.path.join(a, b)] *)
Definition starts_with_slash (s : string) : bool :=
  match s with
  | String "/" _ => true
  | _ => false
  end.

Fixpoint ends_with_slash (s : string) : bool :=
  match s with
  | EmptyString => false
  | String c EmptyString => Ascii.eqb c "/"
  | String _ rest => ends_with_slash rest
  end.

Definition os_path_join (a b : string) : string :=
  if starts_with_slash b then b
  else if String.eqb a "" || ends_with_slash a then a ++ b
  else a ++ "/" ++ b.

(** The three paths of a request: lines 92-94 of the handler;
    [audio_id] is the decimal [id(audio_file)]. *)
Definition video_path (q : Request) : string :=
  os_path_join (temp_dir q) ("input_video_" ++ video_id q ++ ".mp4").

Definition audio_path (q : Request) (audio_id : string) : string :=
  os_path_join (temp_dir q) ("input_audio_" ++ audio_id ++ ".wav").

Definition output_path_joined (q : Request) : string :=
  os_path_join (temp_dir q) ("output_video_" ++ video_id q ++ ".mp4").

(** The answer to a request without one of its file parts. *)
Definition missing_part_response : Response :=
  error_response "Both video and audio files are required" 400.

(** Five requests: one more than the pool has threads. *)
Definition five_requests : list Request :=
  [good_request; good_request; good_request; good_request; good_request].

Definition five_started : list Label :=
  [Handler 0; Handler 0; Handler 1; Handler 1; Handler 2; Handler 2;
   Handler 3; Handler 3; Handler 4; Handler 4;
   Worker 0; Worker 1; Worker 2; Worker 3]%nat.

(** The work item is submitted and its future is still pending. *)
Definition job_pending (r : Req) : bool :=
  match wpc r with
  | WQueued | WAcquire | WBody | WFinally _ | WReturn _ => true
  | _ => false
  end.

End Latentsync.


(** * Properties *)

Import Py.

(** ** The media-sync transition system keeps its invariants *)

Import Latentsync.

Lemma count_if_insert {A} (p : A -> bool) (l : list A) (i : nat) (x y : A) :
  l !! i = Some x ->
  (count_if p (<[i := y]> l) + ind (p x) = count_if p l + ind (p y))%nat.
Proof.
  revert i. induction l as [|a l IH]; intros [|i] Hi; simpl in *; try discriminate.
  - injection Hi as ->. unfold ind. destruct (p x), (p y); lia.
  - specialize (IH i Hi). unfold ind in *. destruct (p a), (p x), (p y); lia.
Qed.

Lemma count_if_le_length {A} (p : A -> bool) (l : list A) :
  (count_if p l <= length l)%nat.
Proof. induction l as [|a l IH]; simpl; [lia|]. destruct (p a); lia. Qed.

Lemma init_inv (qs : list Request) : state_inv (init qs).
Proof.
  split.
  - simpl. induction qs as [|q qs IH]; simpl in *; [reflexivity|]. exact IH.
  - apply Forall_forall. intros r Hr. apply list_elem_of_In in Hr.
    apply in_map_iff in Hr as (q & <- & _).
    repeat split.
Qed.

Ltac break_req r :=
  destruct r as [inp h w f cb wsp cr rl pa pr]; simpl in *.

Ltac open_hyps :=
  repeat match goal with
    | H : _ /\ _ |- _ => destruct H
    | H : exists _, _ |- _ => destruct H
    | H : _ \/ _ |- _ => destruct H
    end.

Ltac crush :=
  open_hyps; subst; simpl in *;
  try congruence; try lia;
  intuition (eauto 6; try congruence; try lia).

Local Arguments str_exn : simpl never.
Local Arguments error_response : simpl never.

Lemma worker_step_inv (n nb : nat) (r r' : Req) (n' : nat) :
  worker_step n nb r = Some (r', n') ->
  req_inv r ->
  req_inv r' /\ (n' + ind (holding r') = n + ind (holding r))%nat.
Proof.
  unfold req_inv, worker_inv, cleanup_inv, response_inv, ws_inv,
    registered_inv, worker_step, outcome.
  break_req r. intros Hs (Hw & Hc & Hr & Hws).
  destruct w; simpl in *; try discriminate.
  - destruct (nb <? MAX_WORKERS)%nat; [|discriminate].
    injection Hs as <- <-. simpl. destruct h; crush.
  - destruct n as [|m]; [discriminate|].
    injection Hs as <- <-. simpl. destruct h; crush.
  - injection Hs as <- <-. simpl. split; [|lia].
    destruct h; destruct wsp as [|[c|]]; simpl;
      destruct inp as [hv ha td vid [e|p]]; simpl in *;
      try destruct (written p) eqn:Hwr; crush.
  - injection Hs as <- <-. simpl. split; [|lia]. destruct h; crush.
  - injection Hs as <- <-. simpl. split; [|lia]. destruct h; destruct cb; crush.
  - injection Hs as <- <-. split; [|reflexivity].
    destruct cb; simpl; destruct h; simpl in *; destruct wsp as [|[c|]];
      simpl in *; crush.
Qed.

Lemma handler_step_inv (r r' : Req) :
  handler_step r = Some r' ->
  req_inv r ->
  req_inv r' /\ holding r' = holding r.
Proof.
  unfold req_inv, worker_inv, cleanup_inv, response_inv, ws_inv,
    registered_inv, handler_step, send_file, outcome.
  break_req r. intros Hs (Hw & Hc & Hr & Hws).
  destruct h; simpl in *; try discriminate.
  - destruct (negb (has_video inp) || negb (has_audio inp)) eqn:Hv;
      injection Hs as <-; simpl; (split; [|reflexivity]).
    + assert (has_video inp = false \/ has_audio inp = false)
        by (destruct (has_video inp), (has_audio inp); simpl in Hv; auto; discriminate).
      destruct w; crush.
    + destruct w; crush.
  - injection Hs as <-; simpl; (split; [|crush]). crush.
  - destruct f as [o|]; injection Hs as <-; simpl; (split; [|reflexivity]);
      destruct w; destruct wsp as [|[c|]]; simpl in *; crush.
  - destruct f as [[e|[]]|]; try discriminate;
      try destruct (is_timeout_error e) eqn:Hto;
      injection Hs as <-; simpl;
      (split; [|reflexivity]); destruct w; crush.
  - injection Hs as <-; simpl; (split; [|reflexivity]).
    destruct w; destruct wsp as [|[c|]]; simpl in *; crush.
Qed.

Lemma timeout_step_inv (r r' : Req) :
  timeout_step r = Some r' ->
  req_inv r ->
  req_inv r' /\ holding r' = holding r.
Proof.
  unfold req_inv, worker_inv, cleanup_inv, response_inv, ws_inv,
    registered_inv, timeout_step, outcome.
  break_req r. intros Hs (Hw & Hc & Hr & Hws).
  destruct h; simpl in *; try discriminate.
  destruct f; [discriminate|]. injection Hs as <-; simpl.
  split; [|reflexivity]. destruct w; crush.
Qed.

Lemma Forall_insert_inv (P : Req -> Prop) (l : list Req) (i : nat) (r : Req) :
  Forall P l -> P r -> Forall P (<[i := r]> l).
Proof. intros Hl Hr. apply Forall_insert; assumption. Qed.

Lemma step_inv (l : Label) (s s' : State) :
  step l s = Some s' -> state_inv s -> state_inv s'.
Proof.
  intros Hs [Hsem Hall].
  assert (Hlk : forall i r, reqs s !! i = Some r -> req_inv r).
  { intros i r Hi. eapply Forall_lookup_1; eassumption. }
  destruct l as [i|i|i]; simpl in Hs;
    destruct (reqs s !! i) as [r|] eqn:Hi; simpl in Hs; try discriminate.
  - destruct (worker_step (sem s) (count_if busy (reqs s)) r) as [[r' n']|] eqn:Hw;
      simpl in Hs; [|discriminate].
    injection Hs as <-.
    destruct (worker_step_inv _ _ _ _ _ Hw (Hlk _ _ Hi)) as [Hr' Hn].
    split; simpl.
    + pose proof (count_if_insert holding (reqs s) i r r' Hi). lia.
    + apply Forall_insert_inv; assumption.
  - destruct (handler_step r) as [r'|] eqn:Hh; simpl in Hs; [|discriminate].
    injection Hs as <-.
    destruct (handler_step_inv _ _ Hh (Hlk _ _ Hi)) as [Hr' Hn].
    split; simpl.
    + pose proof (count_if_insert holding (reqs s) i r r' Hi).
      rewrite Hn in H. lia.
    + apply Forall_insert_inv; assumption.
  - destruct (timeout_step r) as [r'|] eqn:Hh; simpl in Hs; [|discriminate].
    injection Hs as <-.
    destruct (timeout_step_inv _ _ Hh (Hlk _ _ Hi)) as [Hr' Hn].
    split; simpl.
    + pose proof (count_if_insert holding (reqs s) i r r' Hi).
      rewrite Hn in H. lia.
    + apply Forall_insert_inv; assumption.
Qed.

Lemma exec_inv (sched : list Label) (s : State) :
  state_inv s -> state_inv (exec sched s).
Proof.
  revert s. induction sched as [|l sched IH]; intros s Hs; simpl; [exact Hs|].
  apply IH. unfold step_or_stay.
  destruct (step l s) as [s'|] eqn:Hl; [|exact Hs].
  eapply step_inv; eassumption.
Qed.

Lemma reachable_inv (qs : list Request) (sched : list Label) :
  state_inv (exec sched (init qs)).
Proof. apply exec_inv, init_inv. Qed.


Lemma step_worker_at (s : State) (i : nat) (r r' : Req) (n' : nat) :
  reqs s !! i = Some r ->
  worker_step (sem s) (count_if busy (reqs s)) r = Some (r', n') ->
  step (Worker i) s = Some (mkState n' (<[i := r']> (reqs s))).
Proof. intros Hi Hw. unfold step. rewrite Hi. simpl. rewrite Hw. reflexivity. Qed.

Lemma step_handler_at (s : State) (i : nat) (r r' : Req) :
  reqs s !! i = Some r ->
  handler_step r = Some r' ->
  step (Handler i) s = Some (mkState (sem s) (<[i := r']> (reqs s))).
Proof. intros Hi Hw. unfold step. rewrite Hi. simpl. rewrite Hw. reflexivity. Qed.

Lemma step_timeout_at (s : State) (i : nat) (r r' : Req) :
  reqs s !! i = Some r ->
  timeout_step r = Some r' ->
  step (Timeout i) s = Some (mkState (sem s) (<[i := r']> (reqs s))).
Proof. intros Hi Hw. unfold step. rewrite Hi. simpl. rewrite Hw. reflexivity. Qed.

Lemma lookup_insert_same (l : list Req) (i : nat) (r r' : Req) :
  l !! i = Some r -> <[i := r']> l !! i = Some r'.
Proof.
  intros Hi. apply list_lookup_insert_eq. eapply lookup_lt_Some; eassumption.
Qed.

Lemma exec_cons (l : Label) (sched : list Label) (s : State) :
  exec (l :: sched) s = exec sched (step_or_stay s l).
Proof. reflexivity. Qed.

Lemma exec_app (sched1 sched2 : list Label) (s : State) :
  exec (sched1 ++ sched2) s = exec sched2 (exec sched1 s).
Proof. unfold exec. apply fold_left_app. Qed.

Lemma step_or_stay_some (l : Label) (s s' : State) :
  step l s = Some s' -> step_or_stay s l = s'.
Proof. intros H. unfold step_or_stay. rewrite H. reflexivity. Qed.

(** Two consecutive moves of the same work item. *)
Lemma exec_two_worker (s : State) (i : nat) (r r1 r2 : Req) (n1 n2 : nat) :
  reqs s !! i = Some r ->
  worker_step (sem s) (count_if busy (reqs s)) r = Some (r1, n1) ->
  worker_step n1 (count_if busy (<[i := r1]> (reqs s))) r1 = Some (r2, n2) ->
  exec [Worker i; Worker i] s = mkState n2 (<[i := r2]> (reqs s)).
Proof.
  intros Hi H1 H2.
  rewrite exec_cons, (step_or_stay_some _ _ _ (step_worker_at _ _ _ _ _ Hi H1)).
  rewrite exec_cons.
  erewrite (step_or_stay_some (Worker i)).
  2:{ eapply step_worker_at; simpl.
      - eapply lookup_insert_same; exact Hi.
      - exact H2. }
  simpl. rewrite list_insert_insert_eq. reflexivity.
Qed.

(** *** Every step uses up rank; a reachable state that cannot move is finished *)

Lemma sum_with_insert {A} (f : A -> nat) (l : list A) (i : nat) (x y : A) :
  l !! i = Some x ->
  (sum_with f (<[i := y]> l) + f x = sum_with f l + f y)%nat.
Proof.
  revert i. induction l as [|a l IH]; intros [|i] Hi; simpl in *; try discriminate.
  - injection Hi as ->. lia.
  - specialize (IH i Hi). lia.
Qed.

Lemma worker_step_rank (n nb : nat) (r r' : Req) (n' : nat) :
  worker_step n nb r = Some (r', n') -> (rank_req r' < rank_req r)%nat.
Proof.
  unfold worker_step, rank_req. break_req r.
  destruct w; simpl; try discriminate; intros Hs.
  - destruct (nb <? MAX_WORKERS)%nat; [|discriminate]. injection Hs as <- <-. simpl. lia.
  - destruct n; [discriminate|]. injection Hs as <- <-. simpl. lia.
  - injection Hs as <- <-. simpl. lia.
  - injection Hs as <- <-. simpl. lia.
  - injection Hs as <- <-. simpl. lia.
  - injection Hs as <- <-. destruct cb; simpl; lia.
Qed.

Lemma handler_step_rank (r r' : Req) :
  handler_step r = Some r' -> (rank_req r' < rank_req r)%nat.
Proof.
  unfold handler_step, rank_req. break_req r.
  destruct h; simpl; try discriminate; intros Hs.
  - destruct (negb (has_video inp) || negb (has_audio inp));
      injection Hs as <-; simpl; lia.
  - injection Hs as <-. simpl. destruct w; simpl; lia.
  - destruct f; injection Hs as <-; simpl; lia.
  - destruct f as [[e|u]|]; try discriminate;
      try destruct (is_timeout_error e); injection Hs as <-; simpl; lia.
  - injection Hs as <-; simpl; lia.
Qed.

Lemma timeout_step_rank (r r' : Req) :
  timeout_step r = Some r' -> (rank_req r' < rank_req r)%nat.
Proof.
  unfold timeout_step, rank_req. break_req r.
  destruct h; simpl; try discriminate. destruct f; try discriminate.
  intros Hs. injection Hs as <-. simpl. lia.
Qed.

Lemma step_rank (l : Label) (s s' : State) :
  step l s = Some s' -> (rank s' < rank s)%nat.
Proof.
  unfold rank. intros Hs.
  destruct l as [i|i|i]; simpl in Hs;
    destruct (reqs s !! i) as [r|] eqn:Hi; simpl in Hs; try discriminate.
  - destruct (worker_step (sem s) (count_if busy (reqs s)) r) as [[r' n']|] eqn:Hw;
      simpl in Hs; [|discriminate].
    injection Hs as <-. simpl.
    pose proof (sum_with_insert rank_req (reqs s) i r r' Hi).
    pose proof (worker_step_rank _ _ _ _ _ Hw). lia.
  - destruct (handler_step r) as [r'|] eqn:Hh; simpl in Hs; [|discriminate].
    injection Hs as <-. simpl.
    pose proof (sum_with_insert rank_req (reqs s) i r r' Hi).
    pose proof (handler_step_rank _ _ Hh). lia.
  - destruct (timeout_step r) as [r'|] eqn:Hh; simpl in Hs; [|discriminate].
    injection Hs as <-. simpl.
    pose proof (sum_with_insert rank_req (reqs s) i r r' Hi).
    pose proof (timeout_step_rank _ _ Hh). lia.
Qed.

Lemma count_if_pos {A} (p : A -> bool) (l : list A) :
  (0 < count_if p l)%nat -> exists i x, l !! i = Some x /\ p x = true.
Proof.
  induction l as [|a l IH]; simpl; [lia|].
  destruct (p a) eqn:Hp.
  - intros _. exists 0%nat, a. split; [reflexivity|exact Hp].
  - intros H. destruct IH as (i & x & Hi & Hx); [lia|].
    exists (S i), x. split; assumption.
Qed.

Lemma count_if_zero {A} (p : A -> bool) (l : list A) :
  (forall i x, l !! i = Some x -> p x = false) -> count_if p l = 0%nat.
Proof.
  induction l as [|a l IH]; simpl; intros H; [reflexivity|].
  rewrite (H 0%nat a eq_refl). simpl. apply IH.
  intros i x Hi. apply (H (S i) x Hi).
Qed.

Lemma candidates_disabled (s : State) :
  next_label s = None ->
  forall i r, reqs s !! i = Some r ->
    handler_step r = None
    /\ worker_step (sem s) (count_if busy (reqs s)) r = None.
Proof.
  unfold next_label, candidates. intros Hnone i r Hi.
  pose proof (lookup_lt_Some _ _ _ Hi) as Hlt.
  assert (Hin : In i (seq 0 (length (reqs s)))) by (apply in_seq; lia).
  split.
  - assert (He : enabled s (Handler i) = false).
    { eapply find_none; [exact Hnone|]. apply in_or_app. left.
      apply in_map. exact Hin. }
    unfold enabled, step in He. rewrite Hi in He. simpl in He.
    destruct (handler_step r); [discriminate|reflexivity].
  - assert (He : enabled s (Worker i) = false).
    { eapply find_none; [exact Hnone|]. apply in_or_app. right.
      apply in_map. exact Hin. }
    unfold enabled, step in He. rewrite Hi in He. simpl in He.
    destruct (worker_step (sem s) (count_if busy (reqs s)) r) as [[r' n']|];
      [discriminate|reflexivity].
Qed.

(** No deadlock: a state that satisfies the invariant and in which no
    handler and no work item can move has finished every request. *)
Lemma stuck_finished (s : State) :
  state_inv s -> next_label s = None ->
  forall i r, reqs s !! i = Some r -> finished r = true.
Proof.
  intros [Hsem Hall] Hnone.
  pose proof (candidates_disabled s Hnone) as Hdis.
  (* nobody holds a permit *)
  assert (Hhold : count_if holding (reqs s) = 0%nat).
  { apply count_if_zero. intros i x Hi.
    destruct (Hdis i x Hi) as [_ Hw]. unfold worker_step in Hw. unfold holding.
    destruct (wpc x); try reflexivity; discriminate. }
  assert (Hs2 : sem s = 2%nat) by (unfold GPU_PERMITS in Hsem; lia).
  (* so no pool thread is occupied *)
  assert (Hbusy : count_if busy (reqs s) = 0%nat).
  { apply count_if_zero. intros i x Hi.
    destruct (Hdis i x Hi) as [_ Hw]. unfold worker_step in Hw. unfold busy.
    rewrite Hs2 in Hw.
    destruct (wpc x); try reflexivity; discriminate. }
  intros i r Hi. destruct (Hdis i r Hi) as [Hh Hw].
  assert (Hinv : req_inv r) by (eapply Forall_lookup_1; eassumption).
  destruct Hinv as (Hwi & Hci & _).
  unfold worker_step in Hw. rewrite Hbusy, Hs2 in Hw. simpl in Hw.
  unfold handler_step in Hh. unfold finished.
  unfold worker_inv in Hwi. unfold cleanup_inv in Hci.
  destruct (wpc r) eqn:Hpc; try discriminate;
    destruct (hpc r) eqn:Hhp; try discriminate; try reflexivity;
    try (destruct (negb (has_video (input r)) || negb (has_audio (input r)));
         discriminate);
    destruct (fut r) as [[e|u]|]; try discriminate;
    try (destruct (is_timeout_error e); discriminate); crush.
Qed.

Lemma rank_zero_finished (s : State) :
  rank s = 0%nat -> forall i r, reqs s !! i = Some r -> finished r = true.
Proof.
  unfold rank. generalize (reqs s) as l.
  induction l as [|a l IH]; intros Hz [|i] r Hi; simpl in *; try discriminate.
  - injection Hi as ->. unfold rank_req in Hz. unfold finished.
    destruct (hpc r), (wpc r); simpl in Hz; try lia; reflexivity.
  - eapply IH; [lia|exact Hi].
Qed.

Lemma next_label_enabled (s : State) (l : Label) :
  next_label s = Some l -> exists s', step l s = Some s'.
Proof.
  unfold next_label. intros H. apply find_some in H as [_ He].
  unfold enabled in He. destruct (step l s) as [s'|]; [eauto|discriminate].
Qed.

Lemma drain_finishes (fuel : nat) (s : State) :
  state_inv s -> (rank s <= fuel)%nat ->
  forall i r, reqs (exec (drain_sched fuel s) s) !! i = Some r -> finished r = true.
Proof.
  revert s. induction fuel as [|fuel IH]; intros s Hinv Hr; simpl.
  - apply rank_zero_finished. lia.
  - destruct (next_label s) as [l|] eqn:Hn.
    + destruct (next_label_enabled s l Hn) as [s' Hs'].
      rewrite exec_cons, (step_or_stay_some _ _ _ Hs').
      apply IH.
      * eapply step_inv; eassumption.
      * pose proof (step_rank _ _ _ Hs'). lia.
    + apply stuck_finished; assumption.
Qed.

Lemma req_inv_ws_ok (r : Req) : req_inv r -> ws_ok r.
Proof.
  unfold req_inv, worker_inv, cleanup_inv, registered_inv, ws_ok, settled.
  intros (Hw & Hc & _).
  destruct (hpc r), (wpc r), (cb_registered r); crush.
Qed.

(** How one step changes the entry of request [i]. *)
Lemma step_lookup (l : Label) (s s' : State) (i : nat) (r : Req) :
  step l s = Some s' -> reqs s !! i = Some r ->
  exists r', reqs s' !! i = Some r'
    /\ (r' = r
        \/ (exists n nb n', worker_step n nb r = Some (r', n'))
        \/ handler_step r = Some r'
        \/ timeout_step r = Some r').
Proof.
  intros Hs Hi.
  destruct l as [j|j|j]; simpl in Hs;
    destruct (reqs s !! j) as [rj|] eqn:Hj; simpl in Hs; try discriminate.
  - destruct (worker_step (sem s) (count_if busy (reqs s)) rj) as [[r' n']|] eqn:Hw;
      simpl in Hs; [|discriminate].
    injection Hs as <-. simpl.
    destruct (decide (j = i)) as [->|Hne].
    + exists r'. split; [eapply lookup_insert_same; exact Hi|].
      right; left. rewrite Hi in Hj. injection Hj as ->. eauto.
    + exists r. split; [|left; reflexivity].
      rewrite list_lookup_insert_ne; assumption.
  - destruct (handler_step rj) as [r'|] eqn:Hh; simpl in Hs; [|discriminate].
    injection Hs as <-. simpl.
    destruct (decide (j = i)) as [->|Hne].
    + exists r'. split; [eapply lookup_insert_same; exact Hi|].
      right; right; left. rewrite Hi in Hj. injection Hj as ->. exact Hh.
    + exists r. split; [|left; reflexivity].
      rewrite list_lookup_insert_ne; assumption.
  - destruct (timeout_step rj) as [r'|] eqn:Hh; simpl in Hs; [|discriminate].
    injection Hs as <-. simpl.
    destruct (decide (j = i)) as [->|Hne].
    + exists r'. split; [eapply lookup_insert_same; exact Hi|].
      right; right; right. rewrite Hi in Hj. injection Hj as ->. exact Hh.
    + exists r. split; [|left; reflexivity].
      rewrite list_lookup_insert_ne; assumption.
Qed.

(** A property of a request that no move of that request destroys holds
    along every schedule. *)
Lemma exec_stable (P : Req -> Prop) :
  (forall n nb r r' n', P r -> worker_step n nb r = Some (r', n') -> P r') ->
  (forall r r', P r -> handler_step r = Some r' -> P r') ->
  (forall r r', P r -> timeout_step r = Some r' -> P r') ->
  forall sched s i r, reqs s !! i = Some r -> P r ->
    exists r', reqs (exec sched s) !! i = Some r' /\ P r'.
Proof.
  intros HW HH HT. induction sched as [|l sched IH]; intros s i r Hi HP.
  - exists r. split; assumption.
  - rewrite exec_cons. unfold step_or_stay.
    destruct (step l s) as [s'|] eqn:Hs; [|eapply IH; eassumption].
    destruct (step_lookup _ _ _ _ _ Hs Hi) as (r' & Hi' & Hcase).
    apply (IH s' i r' Hi').
    destruct Hcase as [->|[(n & nb & n' & Hw)|[Hh|Ht]]]; eauto.
Qed.

Lemma timed_out_stable (q : Request) (sched : list Label) (s : State)
  (i : nat) (r : Req) :
  reqs s !! i = Some r -> timed_out_with_callback q r ->
  exists r', reqs (exec sched s) !! i = Some r' /\ timed_out_with_callback q r'.
Proof.
  apply (exec_stable (timed_out_with_callback q)); unfold timed_out_with_callback.
  - intros n nb r0 r' n' (Hh & Hc & Hq) Hw. unfold worker_step in Hw.
    destruct r0 as [inp h w f cb wsp cr rl pa pr]; simpl in *. subst.
    destruct w; try discriminate.
    + destruct (nb <? MAX_WORKERS)%nat; [|discriminate]. injection Hw as <- <-. auto.
    + destruct n; [discriminate|]. injection Hw as <- <-. auto.
    + injection Hw as <- <-. auto.
    + injection Hw as <- <-. auto.
    + injection Hw as <- <-. auto.
    + injection Hw as <- <-. auto.
  - intros r0 r' (Hh & _) Hs. unfold handler_step in Hs. rewrite Hh in Hs. discriminate.
  - intros r0 r' (Hh & _) Hs. unfold timeout_step in Hs. rewrite Hh in Hs. discriminate.
Qed.

Lemma req_inv_permit_ok (r : Req) : req_inv r -> permit_ok r.
Proof.
  unfold req_inv, worker_inv, permit_ok, holding, left_with_block.
  intros (Hw & _). destruct (wpc r); crush.
Qed.

(** ** C1 *)

(** C1. In every reachable state of the media-sync server the number of
    work items inside [with gpu_semaphore] is at most the permit count 2
    (the semaphore's value plus that number is exactly 2); every job's
    acquires and releases are paired as [permit_ok] says; and a job that
    holds a permit gives it back within its next two steps, whatever the
    subprocess does, a raised exception included. *)
Theorem C1_permits_bounded_and_released (qs : list Request) (sched : list Label) :
  let s := exec sched (init qs) in
  GPU_PERMITS = 2%nat
  /\ (count_if holding (reqs s) <= GPU_PERMITS)%nat
  /\ (sem s + count_if holding (reqs s) = GPU_PERMITS)%nat
  /\ Forall permit_ok (reqs s)
  /\ (forall i r, reqs s !! i = Some r -> holding r = true ->
      exists r', reqs (exec [Worker i; Worker i] s) !! i = Some r'
                 /\ left_with_block r' = true
                 /\ permits_acquired r' = 1%nat
                 /\ permits_released r' = 1%nat
                 /\ (sem s < sem (exec [Worker i; Worker i] s))%nat).
Proof.
  intros s. destruct (reachable_inv qs sched) as [Hsem Hall]. fold s in Hsem, Hall.
  split; [reflexivity|]. split; [lia|]. split; [exact Hsem|]. split.
  - eapply Forall_impl; [exact Hall|]. intros r. apply req_inv_permit_ok.
  - intros i r Hi Hh.
    assert (Hr : req_inv r) by (eapply Forall_lookup_1; eassumption).
    destruct Hr as (Hw & _). unfold worker_inv in Hw. unfold holding in Hh.
    destruct (wpc r) as [| | | |o|o| |] eqn:Hpc; try discriminate.
    + (* WBody: the subprocess, then finally and release *)
      erewrite (exec_two_worker s i r); [| exact Hi | | ].
      2:{ unfold worker_step. rewrite Hpc. reflexivity. }
      2:{ reflexivity. }
      simpl. eexists. split; [eapply lookup_insert_same; exact Hi|].
      simpl. crush.
    + (* WFinally: release; one more step resolves the future *)
      erewrite (exec_two_worker s i r); [| exact Hi | | ].
      2:{ unfold worker_step. rewrite Hpc. reflexivity. }
      2:{ reflexivity. }
      simpl. eexists. split; [eapply lookup_insert_same; exact Hi|].
      simpl. crush.
Qed.

Lemma C1_witness :
  let s := exec c1_sched (init [good_request; bad_request; good_request]) in
  count_if holding (reqs s) = 2%nat /\ sem s = 0%nat
  /\ (exists r', reqs (exec [Worker 1; Worker 1]%nat s) !! 1%nat = Some r'
                 /\ left_with_block r' = true
                 /\ permits_acquired r' = 1%nat
                 /\ permits_released r' = 1%nat
                 /\ (sem s < sem (exec [Worker 1; Worker 1]%nat s))%nat).
Proof.
  split; [reflexivity|]. split; [reflexivity|].
  pose proof (C1_permits_bounded_and_released
                [good_request; bad_request; good_request] c1_sched) as H.
  cbv zeta in H. destruct H as (_ & _ & _ & _ & H).
  eapply (H 1%nat); reflexivity.
Defined.

(** ** C2 *)

Lemma zonos_never_releases (synthesize : string -> exn + list Byte.byte)
  (request_json : exn + json) (tmp : string) :
  count_if Zonos.is_release
    (snd (Zonos.text_to_speech synthesize request_json tmp)) = 0%nat.
Proof.
  unfold Zonos.text_to_speech, Zonos.text_to_speech_try,
    Zonos.bind, Zonos.lift, Zonos.emit, Zonos.ret.
  destruct request_json as [e|data]; simpl; [reflexivity|].
  destruct (dict_get data "text" (JStr "")) as [e|text]; simpl; [reflexivity|].
  destruct (Zonos.py_strip text) as [e|[|c stripped]]; simpl;
    [reflexivity|reflexivity|].
  destruct (synthesize _) as [e|wav]; simpl; reflexivity.
Qed.

Lemma finished_released (r : Req) :
  req_inv r -> finished r = true ->
  ws_released r = ws_created r /\ (ws_released r <= 1)%nat.
Proof.
  unfold req_inv, worker_inv, cleanup_inv, registered_inv, finished.
  intros (Hw & Hc & _).
  destruct (hpc r), (wpc r), (cb_registered r); try discriminate; crush.
Qed.

(** C2, as stated, fails on the text-to-speech handler: a request that is
    answered 200 has created its temporary file once and released it
    zero times. *)
Lemma C2_counterexample :
  let out := Zonos.text_to_speech Zonos.beep
               (inr (JObj [("text", JStr "hello")])) "/tmp/tmpq1.wav" in
  status (fst out) = 200
  /\ count_if Zonos.is_create (snd out) = 1%nat
  /\ count_if Zonos.is_release (snd out) <> 1%nat.
Proof. repeat split. discriminate. Qed.

(** C2, amended. In every reachable state of the media-sync server the
    temporary directory of each request is removed at most once, never
    before the job's future is resolved, and exactly once as soon as the
    work item is over and the handler is past [add_done_callback], also
    when the handler has answered 504 before; every reachable state can
    be run, without any timeout, to a state where every request is
    finished and has as many removals as creations (one or none). The
    text-to-speech handler never removes its temporary file. *)
Theorem C2_media_sync_workspace_released_once
  (qs : list Request) (sched : list Label) :
  let s := exec sched (init qs) in
  Forall ws_ok (reqs s)
  /\ (forall i r, reqs s !! i = Some r ->
        hpc r = HDone (error_response "Processing timeout" 504) ->
        wpc r = WDone -> ws_released r = 1%nat)
  /\ Forall (fun r => finished r = true
                      /\ ws_released r = ws_created r
                      /\ (ws_released r <= 1)%nat)
            (reqs (exec (drain_sched (rank s) s) s))
  /\ (forall synthesize request_json tmp,
        count_if Zonos.is_release
          (snd (Zonos.text_to_speech synthesize request_json tmp)) = 0%nat).
Proof.
  intros s. pose proof (reachable_inv qs sched) as Hinv. fold s in Hinv.
  split; [|split; [|split]].
  - destruct Hinv as [_ Hall].
    eapply Forall_impl; [exact Hall|]. intros r. apply req_inv_ws_ok.
  - intros i r Hi Hh Hw. destruct Hinv as [_ Hall].
    assert (Hr : ws_ok r).
    { apply req_inv_ws_ok. eapply Forall_lookup_1; eassumption. }
    destruct Hr as (_ & _ & _ & Hs). apply Hs.
    unfold settled. rewrite Hw, Hh. reflexivity.
  - apply Forall_lookup_2. intros i r Hi.
    assert (Hf : finished r = true).
    { eapply (drain_finishes (rank s) s Hinv); [lia|exact Hi]. }
    assert (Hr : req_inv r).
    { pose proof (exec_inv (drain_sched (rank s) s) s Hinv) as [_ Hall].
      eapply Forall_lookup_1; eassumption. }
    split; [exact Hf|]. apply finished_released; assumption.
  - apply zonos_never_releases.
Qed.

Lemma C2_witness :
  reqs (exec c2_sched (init [bad_request])) !! 0%nat = Some c2_req
  /\ ws_released c2_req = 1%nat.
Proof.
  split; [reflexivity|].
  pose proof (C2_media_sync_workspace_released_once [bad_request] c2_sched) as H.
  cbv zeta in H. destruct H as (_ & H & _).
  apply (H 0%nat c2_req); reflexivity.
Defined.

(** ** C3 *)

(** C3. In a reachable state where the handler of request [i] waits in
    [future.result] and the future is pending, the expiry of the wait is
    one step of the handler alone: it answers 504 "Processing timeout",
    and the semaphore, the work item's position, its permit counters,
    its future and its temporary directory (still present, not removed)
    are exactly as before. Along every continuation the response stays
    504, the directory is removed exactly when the work item is over,
    and the future then holds the job's own outcome; and the job does
    get there, with its permit released. *)
Theorem C3_timeout_does_not_abort_job
  (qs : list Request) (sched : list Label) (i : nat) (r : Req) :
  let s := exec sched (init qs) in
  reqs s !! i = Some r -> hpc r = HWait -> fut r = None ->
  let r504 := set_hpc (HDone (error_response "Processing timeout" 504)) r in
  let s' := mkState (sem s) (<[i := r504]> (reqs s)) in
  step (Timeout i) s = Some s'
  /\ response s' i = Some (error_response "Processing timeout" 504)
  /\ sem s' = sem s
  /\ wpc r504 = wpc r /\ wpc r <> WDone /\ fut r504 = None
  /\ permits_acquired r504 = permits_acquired r
  /\ permits_released r504 = permits_released r
  /\ holding r504 = holding r
  /\ ws r504 = ws r /\ ws r <> WsAbsent /\ ws_released r504 = 0%nat
  /\ (forall sched', exists r'',
        reqs (exec sched' s') !! i = Some r''
        /\ hpc r'' = HDone (error_response "Processing timeout" 504)
        /\ (ws_released r'' = 1%nat <-> wpc r'' = WDone)
        /\ (ws_released r'' = 0%nat <-> wpc r'' <> WDone)
        /\ (wpc r'' = WDone -> fut r'' = Some (outcome r)))
  /\ (exists sched' r'',
        reqs (exec sched' s') !! i = Some r''
        /\ wpc r'' = WDone /\ fut r'' = Some (outcome r)
        /\ ws_released r'' = 1%nat
        /\ permits_acquired r'' = 1%nat /\ permits_released r'' = 1%nat).
Proof.
  intros s Hi Hh Hf r504 s'.
  pose proof (reachable_inv qs sched) as Hinv. fold s in Hinv.
  assert (Hr : req_inv r) by (destruct Hinv; eapply Forall_lookup_1; eassumption).
  assert (Hstep : step (Timeout i) s = Some s').
  { eapply step_timeout_at; [exact Hi|]. unfold timeout_step. rewrite Hh, Hf. reflexivity. }
  assert (Hinv' : state_inv s') by (eapply step_inv; eassumption).
  assert (Hi' : reqs s' !! i = Some r504) by (eapply lookup_insert_same; exact Hi).
  assert (Hcb : cb_registered r = true /\ wpc r <> WDone /\ ws r <> WsAbsent
                /\ ws_released r = 0%nat).
  { destruct Hr as (Hw & Hc & _ & Hws).
    unfold worker_inv, cleanup_inv, registered_inv, ws_inv in *.
    rewrite Hh, Hf in *.
    destruct (cb_registered r), (wpc r), (ws r); crush. }
  destruct Hcb as (Hcb & Hnd & Hwsp & Hrel).
  assert (Hto : timed_out_with_callback (input r) r504).
  { unfold timed_out_with_callback. simpl. auto. }
  assert (Hlater : forall sched', exists r'',
        reqs (exec sched' s') !! i = Some r''
        /\ timed_out_with_callback (input r) r'' /\ req_inv r'').
  { intros sched'.
    destruct (timed_out_stable (input r) sched' s' i r504 Hi' Hto) as (r'' & Hi'' & Hto'').
    exists r''. split; [exact Hi''|]. split; [exact Hto''|].
    pose proof (exec_inv sched' s' Hinv') as [_ Hall].
    eapply Forall_lookup_1; eassumption. }
  split; [exact Hstep|]. split.
  { unfold response. rewrite Hi'. reflexivity. }
  split; [reflexivity|]. split; [reflexivity|]. split; [exact Hnd|].
  split; [exact Hf|]. split; [reflexivity|]. split; [reflexivity|].
  split; [reflexivity|]. split; [reflexivity|]. split; [exact Hwsp|].
  split; [exact Hrel|]. split.
  - intros sched'. destruct (Hlater sched') as (r'' & Hi'' & (Hh'' & Hcb'' & Hq'') & Hr'').
    exists r''. split; [exact Hi''|]. split; [exact Hh''|].
    destruct Hr'' as (Hw & Hc & _).
    unfold worker_inv, cleanup_inv, registered_inv, outcome in *.
    rewrite Hh'', Hcb'' in Hc. rewrite Hq'' in Hw.
    destruct (wpc r''); crush.
  - exists (drain_sched (rank s') s').
    destruct (Hlater (drain_sched (rank s') s'))
      as (r'' & Hi'' & (Hh'' & Hcb'' & Hq'') & Hr'').
    exists r''. split; [exact Hi''|].
    assert (Hfin : finished r'' = true).
    { eapply (drain_finishes (rank s') s' Hinv'); [lia|exact Hi'']. }
    destruct Hr'' as (Hw & Hc & _).
    unfold worker_inv, cleanup_inv, registered_inv, outcome, finished in *.
    rewrite Hh'' in Hfin, Hc. rewrite Hcb'' in Hc. rewrite Hq'' in Hw.
    destruct (wpc r''); try discriminate; crush.
Qed.

Lemma C3_witness :
  reqs (exec c3_sched (init [good_request])) !! 0%nat = Some c3_req
  /\ response (exec (Timeout 0%nat :: nil) (exec c3_sched (init [good_request]))) 0
     = Some (error_response "Processing timeout" 504)
  /\ exists sched' r'',
        reqs (exec sched'
                (mkState (sem (exec c3_sched (init [good_request])))
                   (<[0%nat := set_hpc (HDone (error_response "Processing timeout" 504)) c3_req]>
                      (reqs (exec c3_sched (init [good_request])))))) !! 0%nat
        = Some r''
        /\ wpc r'' = WDone /\ fut r'' = Some (outcome c3_req)
        /\ ws_released r'' = 1%nat
        /\ permits_acquired r'' = 1%nat /\ permits_released r'' = 1%nat.
Proof.
  split; [reflexivity|]. split; [reflexivity|].
  pose proof (C3_timeout_does_not_abort_job [good_request] c3_sched 0%nat c3_req) as H.
  cbv zeta in H.
  destruct (H eq_refl eq_refl eq_refl) as (_ & _ & _ & _ & _ & _ & _ & _ & _ & _ & _ & _ & _ & Hex).
  exact Hex.
Defined.

(** ** The completion server (deepseek) *)

Section DeepseekProperties.
Import Deepseek.
Variable engine : json -> SamplingParams -> exn + list RequestOutput.

Lemma ready_after_true (l : list Incoming) : ready_after engine true l = true.
Proof. induction l as [|x l IH]; simpl; [reflexivity|]. destruct x; exact IH. Qed.

Lemma ready_after_no_init (l : list Incoming) :
  (forall x, In x l -> x <> InitEngineDone) -> ready_after engine false l = false.
Proof.
  induction l as [|x l IH]; simpl; intros H; [reflexivity|].
  destruct x; simpl; try (apply IH; intros y Hy; apply H; right; exact Hy).
  exfalso. apply (H InitEngineDone); [left; reflexivity|reflexivity].
Qed.

Lemma ready_after_app (b : bool) (l1 l2 : list Incoming) :
  ready_after engine b (l1 ++ l2) = ready_after engine (ready_after engine b l1) l2.
Proof. revert b. induction l1 as [|x l1 IH]; intros b; simpl; [reflexivity|]. apply IH. Qed.

(** The answer at position [k] is computed with the flag as the events
    before it left it. *)
Lemma serve_lookup (b : bool) (l : list Incoming) (k : nat) (x : Incoming) :
  l !! k = Some x ->
  serve engine b l !! k
  = Some (snd (serve_one engine (ready_after engine b (take k l)) x)).
Proof.
  revert b k. induction l as [|y l IH]; intros b [|k] Hk; simpl in *; try discriminate.
  - injection Hk as ->. destruct (serve_one engine b x) as [b' r]. reflexivity.
  - destruct (serve_one engine b y) as [b' r] eqn:Hy. simpl.
    rewrite (IH b' k Hk). reflexivity.
Qed.

End DeepseekProperties.

(** ** C4 *)

(** C4, as stated, fails: while [engine_ready] is unset a GET /v1/models
    is answered 200, not 503, and a GET /health is answered 503 with a
    body that has no "error" key at all. *)
Lemma C4_counterexample :
  Deepseek.serve Deepseek.echo_engine false
    [Deepseek.GetModels Deepseek.env0; Deepseek.GetHealth]
  = [Some (Deepseek.list_models Deepseek.env0);
     Some (jsonify (JObj [("status", JStr "initializing");
                          ("model", JStr Deepseek.MODEL_ID)]) 503)]
  /\ status (Deepseek.list_models Deepseek.env0) = 200
  /\ has_error_key (JObj [("status", JStr "initializing");
                          ("model", JStr Deepseek.MODEL_ID)]) = false.
Proof. repeat split. Qed.

(** C4, amended. While [engine_ready] is unset, [chat_completions]
    answers every completion request, whatever its body, with 503 and the
    error envelope, and performs no effect: the engine is never called,
    so no job exists and nothing is queued (this server has no permit
    pool at all). In the process, after any events other than the end of
    [init_engine], a completion request gets that answer, while a
    GET /v1/models is answered 200 with the model list (that entry point
    has no readiness check) and a GET /health is answered 503 with the
    status "initializing" instead of the envelope. *)
Theorem C4_not_ready_rejected
  (engine : json -> Deepseek.SamplingParams -> exn + list Deepseek.RequestOutput)
  (env : Deepseek.Env) (request_body : option json) (before : list Deepseek.Incoming) :
  (forall x, In x before -> x <> Deepseek.InitEngineDone) ->
  Deepseek.chat_completions engine false env request_body
    = (jsonify Deepseek.not_ready_body 503, [])
  /\ is_error_envelope Deepseek.not_ready_body = true
  /\ Deepseek.serve engine false (before ++ [Deepseek.PostChat env request_body])
       !! length before
     = Some (Some (jsonify Deepseek.not_ready_body 503))
  /\ Deepseek.serve engine false (before ++ [Deepseek.GetModels env])
       !! length before
     = Some (Some (Deepseek.list_models env))
  /\ status (Deepseek.list_models env) = 200
  /\ Deepseek.serve engine false (before ++ [Deepseek.GetHealth])
       !! length before
     = Some (Some (jsonify (JObj [("status", JStr "initializing");
                                  ("model", JStr Deepseek.MODEL_ID)]) 503))
  /\ is_error_envelope (JObj [("status", JStr "initializing");
                              ("model", JStr Deepseek.MODEL_ID)]) = false.
Proof.
  intros Hno.
  assert (Hat : forall x,
    Deepseek.serve engine false (before ++ [x]) !! length before
    = Some (snd (Deepseek.serve_one engine false x))).
  { intros x. rewrite (serve_lookup engine false _ (length before) x).
    - rewrite take_app_length. rewrite (ready_after_no_init engine before Hno).
      reflexivity.
    - rewrite lookup_app_r by lia. rewrite Nat.sub_diag. reflexivity. }
  split; [reflexivity|]. split; [reflexivity|].
  rewrite !Hat. repeat split.
Qed.

Lemma C4_witness :
  Deepseek.chat_completions Deepseek.echo_engine false Deepseek.env0
    (Some (JObj [("messages", JArr [JStr "hi"])]))
    = (jsonify Deepseek.not_ready_body 503, [])
  /\ Deepseek.serve Deepseek.echo_engine false
       ([Deepseek.GetHealth; Deepseek.GetModels Deepseek.env0]
        ++ [Deepseek.PostChat Deepseek.env0
              (Some (JObj [("messages", JArr [JStr "hi"])]))])
       !! length [Deepseek.GetHealth; Deepseek.GetModels Deepseek.env0]
     = Some (Some (jsonify Deepseek.not_ready_body 503))
  /\ Deepseek.serve Deepseek.echo_engine false
       ([Deepseek.GetHealth; Deepseek.GetModels Deepseek.env0]
        ++ [Deepseek.GetModels Deepseek.env0])
       !! length [Deepseek.GetHealth; Deepseek.GetModels Deepseek.env0]
     = Some (Some (Deepseek.list_models Deepseek.env0)).
Proof.
  destruct (C4_not_ready_rejected Deepseek.echo_engine Deepseek.env0
           (Some (JObj [("messages", JArr [JStr "hi"])]))
           [Deepseek.GetHealth; Deepseek.GetModels Deepseek.env0])
    as (H1 & _ & H3 & H4 & _).
  - intros x [<-|[<-|[]]]; discriminate.
  - split; [exact H1|]. split; [exact H3|exact H4].
Defined.

(** ** C5 *)

(** C5. In the completion server, in any sequence of events in which the
    end of [init_engine] first occurs after [before], every GET /health
    of [before] is answered 503 "initializing" and every GET /health
    after it is answered 200 "healthy" (nothing unsets the flag, so the
    answer never goes back). The media-sync and text-to-speech servers
    have no readiness signal: their /health is the constant 200
    "healthy". *)
Theorem C5_health_follows_readiness
  (engine : json -> Deepseek.SamplingParams -> exn + list Deepseek.RequestOutput)
  (before after : list Deepseek.Incoming) :
  (forall x, In x before -> x <> Deepseek.InitEngineDone) ->
  let answers :=
    Deepseek.serve engine false (before ++ Deepseek.InitEngineDone :: after) in
  (forall k, before !! k = Some Deepseek.GetHealth ->
     answers !! k
     = Some (Some (jsonify (JObj [("status", JStr "initializing");
                                  ("model", JStr Deepseek.MODEL_ID)]) 503)))
  /\ (forall k, after !! k = Some Deepseek.GetHealth ->
     answers !! (length before + 1 + k)%nat
     = Some (Some (jsonify (JObj [("status", JStr "healthy");
                                  ("model", JStr Deepseek.MODEL_ID)]) 200)))
  /\ Latentsync.health_check = jsonify (JObj [("status", JStr "healthy")]) 200
  /\ Zonos.health_check = jsonify (JObj [("status", JStr "healthy")]) 200.
Proof.
  intros Hno answers. split; [|split; [|split; reflexivity]].
  - intros k Hk. unfold answers.
    pose proof (lookup_lt_Some _ _ _ Hk) as Hlt.
    rewrite (serve_lookup engine false _ k Deepseek.GetHealth).
    + rewrite take_app_le by lia.
      rewrite ready_after_no_init; [reflexivity|].
      intros x Hx. apply Hno.
      apply list_elem_of_In. apply list_elem_of_In in Hx.
      eapply (subseteq_take k before); exact Hx.
    + rewrite lookup_app_l by lia. exact Hk.
  - intros k Hk. unfold answers.
    rewrite (serve_lookup engine false _ _ Deepseek.GetHealth).
    + replace (length before + 1 + k)%nat with (length before + S k)%nat by lia.
      rewrite take_app_add'; [|reflexivity].
      rewrite ready_after_app. simpl firstn. simpl take.
      rewrite (ready_after_no_init engine before Hno). simpl.
      rewrite ready_after_true. reflexivity.
    + rewrite lookup_app_r by lia.
      replace (length before + 1 + k - length before)%nat with (S k) by lia.
      exact Hk.
Qed.

Lemma C5_witness :
  let answers :=
    Deepseek.serve Deepseek.echo_engine false
      ([Deepseek.GetHealth; Deepseek.GetHealth]
       ++ Deepseek.InitEngineDone :: [Deepseek.GetHealth; Deepseek.GetHealth]) in
  answers !! 1%nat
    = Some (Some (jsonify (JObj [("status", JStr "initializing");
                                 ("model", JStr Deepseek.MODEL_ID)]) 503))
  /\ answers !! (2 + 1 + 1)%nat
    = Some (Some (jsonify (JObj [("status", JStr "healthy");
                                 ("model", JStr Deepseek.MODEL_ID)]) 200)).
Proof.
  assert (Hno : forall x, In x [Deepseek.GetHealth; Deepseek.GetHealth] ->
                          x <> Deepseek.InitEngineDone).
  { intros x [<-|[<-|[]]]; discriminate. }
  pose proof (C5_health_follows_readiness Deepseek.echo_engine
                [Deepseek.GetHealth; Deepseek.GetHealth]
                [Deepseek.GetHealth; Deepseek.GetHealth] Hno) as H.
  cbv zeta in H. destruct H as (H1 & H2 & _).
  split; [apply (H1 1%nat); reflexivity | apply (H2 1%nat); reflexivity].
Defined.

(** ** C6 *)

(** C6, as stated, fails: with the engine not ready, a completion request
    with an empty [messages] list is answered 503, not 400. *)
Lemma C6_counterexample :
  status (fst (Deepseek.chat_completions Deepseek.echo_engine false Deepseek.env0
                 (Some (JObj [("messages", JArr [])])))) = 503
  /\ status (fst (Deepseek.chat_completions Deepseek.echo_engine false Deepseek.env0
                 (Some (JObj [("messages", JArr [])])))) <> 400.
Proof. split; [reflexivity|discriminate]. Qed.

(** C6, amended. For a completion request whose body is a JSON object
    with [messages] missing or an empty list: the readiness check comes
    first, so with the engine not ready the answer is 503; with the
    engine ready the answer is 400 with a message under "error". In both
    cases the engine is not called: no job is created (and the server
    has no permits to acquire). *)
Theorem C6_empty_messages_rejected_when_ready
  (engine : json -> Deepseek.SamplingParams -> exn + list Deepseek.RequestOutput)
  (env : Deepseek.Env) (items : list (string * json)) :
  assoc "messages" items = None \/ assoc "messages" items = Some (JArr []) ->
  (exists msg,
     Deepseek.chat_completions engine true env (Some (JObj items))
     = (jsonify (JObj [("error", JObj [("message", JStr msg)])]) 400, []))
  /\ Deepseek.chat_completions engine false env (Some (JObj items))
     = (jsonify Deepseek.not_ready_body 503, []).
Proof.
  intros Hm. split; [|reflexivity].
  unfold Deepseek.chat_completions, Deepseek.chat_completions_try. simpl.
  destruct items as [|[k v] rest]; simpl.
  - exists "Invalid JSON". reflexivity.
  - exists "No messages provided". simpl in Hm.
    destruct (String.eqb "messages" k); destruct Hm as [Hm|Hm];
      try discriminate; try (injection Hm as ->); try rewrite Hm; reflexivity.
Qed.

Lemma C6_witness :
  (exists msg,
     Deepseek.chat_completions Deepseek.echo_engine true Deepseek.env0
       (Some (JObj [("model", JStr "deepseek-v3"); ("messages", JArr [])]))
     = (jsonify (JObj [("error", JObj [("message", JStr msg)])]) 400, []))
  /\ Deepseek.chat_completions Deepseek.echo_engine false Deepseek.env0
       (Some (JObj [("model", JStr "deepseek-v3"); ("messages", JArr [])]))
     = (jsonify Deepseek.not_ready_body 503, []).
Proof.
  apply (C6_empty_messages_rejected_when_ready Deepseek.echo_engine Deepseek.env0
           [("model", JStr "deepseek-v3"); ("messages", JArr [])]).
  right. reflexivity.
Defined.

(** ** C10 *)

Lemma assoc_some_truthy (k : string) (items : list (string * json)) (v : json) :
  assoc k items = Some v -> truthy (JObj items) = true.
Proof. destruct items; simpl; [discriminate|reflexivity]. Qed.

(** What [chat_completions] does with a ready engine and an object body
    whose [messages] is truthy. *)
Lemma chat_on_valid
  (engine : json -> Deepseek.SamplingParams -> exn + list Deepseek.RequestOutput)
  (env : Deepseek.Env) (items : list (string * json)) (msgs : json) :
  assoc "messages" items = Some msgs -> truthy msgs = true ->
  Deepseek.chat_completions engine true env (Some (JObj items))
  = match Deepseek.sampling_params_raises env with
    | Some e => (Deepseek.error_500 e, [])
    | None =>
        let sp := Deepseek.mkSamplingParams
                    (Deepseek.field_or items "temperature" (JFloat (7 # 10)))
                    (Deepseek.field_or items "top_p" (JFloat (1 # 1)))
                    (Deepseek.field_or items "max_tokens" (JInt 150)) in
        match engine msgs sp with
        | inl e => (Deepseek.error_500 e, [Deepseek.EvGenerate msgs sp])
        | inr [] =>
            (Deepseek.error_500 (ValueError "No results from model"),
             [Deepseek.EvGenerate msgs sp])
        | inr (result :: _) =>
            match Deepseek.outputs result with
            | [] =>
                (Deepseek.error_500 (IndexError "list index out of range"),
                 [Deepseek.EvGenerate msgs sp])
            | o :: _ =>
                (jsonify (Deepseek.completion_json env result o) 200,
                 [Deepseek.EvGenerate msgs sp])
            end
        end
    end.
Proof.
  intros Hm Ht.
  unfold Deepseek.chat_completions, Deepseek.chat_completions_try.
  rewrite (assoc_some_truthy _ _ _ Hm). cbn [negb].
  unfold dict_get at 1. rewrite Hm. cbn [Deepseek.lift Deepseek.bind]. rewrite Ht.
  cbn [negb]. unfold Deepseek.optional_parameters, dict_get.
  cbn [Deepseek.lift Deepseek.bind].
  unfold Deepseek.make_sampling_params.
  destruct (Deepseek.sampling_params_raises env) as [e|]; [reflexivity|].
  cbn [Deepseek.req_temperature Deepseek.req_top_p Deepseek.req_max_tokens].
  unfold Deepseek.generate_completion. cbn [Deepseek.bind].
  fold (Deepseek.field_or items "temperature" (JFloat (7 # 10))).
  fold (Deepseek.field_or items "top_p" (JFloat (1 # 1))).
  fold (Deepseek.field_or items "max_tokens" (JInt Deepseek.DEFAULT_MAX_TOKENS)).
  change (JInt Deepseek.DEFAULT_MAX_TOKENS) with (JInt 150). cbv zeta.
  destruct (engine msgs _) as [e|[|result rest]]; cbn; try reflexivity.
  unfold Deepseek.first_output.
  destruct (Deepseek.outputs result) as [|o os]; reflexivity.
Qed.

(** C10. With the engine ready, for a completion request whose body is a
    JSON object with a non-empty [messages] list: the handler reads
    [model], [max_tokens], [temperature] and [top_p] from the body, each
    being "deepseek-v3", 150, 0.7 and 1.0 when its key is absent; the
    answer is never 400; unless vLLM's [SamplingParams] constructor
    rejects the resulting arguments (then the answer is 500 and the
    engine is not called), the engine is called exactly once with the
    messages and these sampling parameters, and the answer is 200 or,
    when the engine fails, 500. *)
Theorem C10_optional_fields_default
  (engine : json -> Deepseek.SamplingParams -> exn + list Deepseek.RequestOutput)
  (env : Deepseek.Env) (items : list (string * json)) (m : json) (ms : list json) :
  assoc "messages" items = Some (JArr (m :: ms)) ->
  let out := Deepseek.chat_completions engine true env (Some (JObj items)) in
  exists params,
    Deepseek.optional_parameters (JObj items) = inr params
    /\ (assoc "model" items = None -> Deepseek.req_model params = JStr "deepseek-v3")
    /\ (assoc "max_tokens" items = None -> Deepseek.req_max_tokens params = JInt 150)
    /\ (assoc "temperature" items = None ->
        Deepseek.req_temperature params = JFloat (7 # 10))
    /\ (assoc "top_p" items = None -> Deepseek.req_top_p params = JFloat (1 # 1))
    /\ (forall k v, assoc k items = Some v ->
          (k = "model" -> Deepseek.req_model params = v)
          /\ (k = "max_tokens" -> Deepseek.req_max_tokens params = v)
          /\ (k = "temperature" -> Deepseek.req_temperature params = v)
          /\ (k = "top_p" -> Deepseek.req_top_p params = v))
    /\ status (fst out) <> 400
    /\ (status (fst out) = 200 \/ status (fst out) = 500)
    /\ (Deepseek.sampling_params_raises env = None ->
        snd out = [Deepseek.EvGenerate (JArr (m :: ms))
                     (Deepseek.mkSamplingParams (Deepseek.req_temperature params)
                        (Deepseek.req_top_p params) (Deepseek.req_max_tokens params))])
    /\ (forall e, Deepseek.sampling_params_raises env = Some e ->
        out = (Deepseek.error_500 e, [])).
Proof.
  intros Hm out.
  exists (Deepseek.mkParameters
            (Deepseek.field_or items "model" (JStr "deepseek-v3"))
            (Deepseek.field_or items "max_tokens" (JInt 150))
            (Deepseek.field_or items "temperature" (JFloat (7 # 10)))
            (Deepseek.field_or items "top_p" (JFloat (1 # 1)))).
  split; [reflexivity|].
  cbn [Deepseek.req_model Deepseek.req_max_tokens Deepseek.req_temperature
       Deepseek.req_top_p].
  unfold Deepseek.field_or.
  split; [intros H; rewrite H; reflexivity|].
  split; [intros H; rewrite H; reflexivity|].
  split; [intros H; rewrite H; reflexivity|].
  split; [intros H; rewrite H; reflexivity|].
  split.
  { intros k v Hk. repeat split; intros ->; rewrite Hk; reflexivity. }
  assert (Hout := chat_on_valid engine env items (JArr (m :: ms)) Hm eq_refl).
  fold out in Hout. unfold Deepseek.field_or in Hout.
  assert (Hst : (status (fst out) = 200 \/ status (fst out) = 500)
                /\ (Deepseek.sampling_params_raises env = None ->
                    snd out = [Deepseek.EvGenerate (JArr (m :: ms))
                       (Deepseek.mkSamplingParams
                          match assoc "temperature" items with
                          | Some v => v | None => JFloat (7 # 10) end
                          match assoc "top_p" items with
                          | Some v => v | None => JFloat (1 # 1) end
                          match assoc "max_tokens" items with
                          | Some v => v | None => JInt 150 end)])
                /\ (forall e, Deepseek.sampling_params_raises env = Some e ->
                    out = (Deepseek.error_500 e, []))).
  { rewrite Hout. clear Hout.
    destruct (Deepseek.sampling_params_raises env) as [e0|].
    { split; [right; reflexivity|]. split; [discriminate|].
      intros e He. injection He as ->. reflexivity. }
    cbv zeta.
    destruct (engine _ _) as [e|[|result rest]];
      try (split; [right; reflexivity|]; split; [reflexivity|discriminate]).
    destruct (Deepseek.outputs result) as [|o os];
      (split; [(left; reflexivity) || (right; reflexivity)|];
       split; [reflexivity|discriminate]). }
  destruct Hst as (Hs & Ht & He).
  split; [destruct Hs as [Hs|Hs]; rewrite Hs; discriminate|].
  split; [exact Hs|]. split; [exact Ht|exact He].
Qed.

Lemma C10_witness :
  exists params,
    Deepseek.optional_parameters (JObj [("messages", JArr [JStr "hi"])]) = inr params
    /\ Deepseek.req_model params = JStr "deepseek-v3"
    /\ snd (Deepseek.chat_completions Deepseek.echo_engine true Deepseek.env0
              (Some (JObj [("messages", JArr [JStr "hi"])])))
       = [Deepseek.EvGenerate (JArr [JStr "hi"])
            (Deepseek.mkSamplingParams (JFloat (7 # 10)) (JFloat (1 # 1)) (JInt 150))]
    /\ status (fst (Deepseek.chat_completions Deepseek.echo_engine true Deepseek.env0
              (Some (JObj [("messages", JArr [JStr "hi"])])))) <> 400.
Proof.
  destruct (C10_optional_fields_default Deepseek.echo_engine Deepseek.env0
              [("messages", JArr [JStr "hi"])] (JStr "hi") [] eq_refl)
    as (params & Hp & Hmodel & Hmt & Htemp & Htp & _ & H400 & _ & Hcall & _).
  exists params. split; [exact Hp|]. split; [apply Hmodel; reflexivity|].
  split; [|exact H400].
  rewrite (Hcall eq_refl), (Hmt eq_refl), (Htemp eq_refl), (Htp eq_refl).
  reflexivity.
Defined.

(** ** C7 *)

(** C7 (the code breaks it). A media-sync request with both files whose
    subprocess exits 0 and writes [c] at the output path: when the job
    finishes before the handler reaches [add_done_callback], the handler
    runs [cleanup_callback] itself and then [send_file] finds no file;
    when the callback is registered in time, the pool thread may still
    run it before the handler reaches [send_file]. In both schedules the
    caller gets 500 with the message of [FileNotFoundError] although the
    job succeeded. Only when [send_file] runs before the pool thread's
    callback does the caller get 200 with exactly [c]. *)
Theorem C7_output_removed_before_send
  (q : Request) (p : ProcResult) (c : Payload) :
  has_video q = true -> has_audio q = true ->
  inference q = inr p -> returncode p = 0 -> written p = Some c ->
  response (exec [Handler 0; Handler 0;
                  Worker 0; Worker 0; Worker 0; Worker 0; Worker 0;
                  Handler 0; Handler 0; Handler 0]%nat (init [q])) 0
  = Some (error_response (str_exn (FileNotFoundError (output_path q))) 500)
  /\ response (exec [Handler 0; Handler 0; Handler 0;
                  Worker 0; Worker 0; Worker 0; Worker 0; Worker 0; Worker 0;
                  Handler 0; Handler 0]%nat (init [q])) 0
  = Some (error_response (str_exn (FileNotFoundError (output_path q))) 500)
  /\ response (exec [Handler 0; Handler 0; Handler 0;
                  Worker 0; Worker 0; Worker 0; Worker 0; Worker 0;
                  Handler 0; Handler 0; Worker 0]%nat (init [q])) 0
  = Some (mkResponse 200 (BFile "video/mp4" c)).
Proof.
  intros Hv Ha Hi Hrc Hw.
  destruct q as [hv ha td vid inf]. simpl in Hv, Ha, Hi. subst hv ha inf.
  destruct p as [rc err wr]. simpl in Hrc, Hw. subst rc wr.
  repeat split.
Qed.

Lemma C7_witness :
  response (exec [Handler 0; Handler 0;
                  Worker 0; Worker 0; Worker 0; Worker 0; Worker 0;
                  Handler 0; Handler 0; Handler 0]%nat (init [good_request])) 0
  = Some (error_response
            "[Errno 2] No such file or directory: '/tmp/latentsync_ab/output_video_140.mp4'"
            500).
Proof.
  exact (proj1 (C7_output_removed_before_send good_request
                  (mkProcResult 0 (inr "") (Some mp4)) mp4
                  eq_refl eq_refl eq_refl eq_refl eq_refl)).
Defined.

(** For every schedule, a 200 answer carries exactly what the subprocess
    wrote at the output path. *)
Lemma success_payload_is_subprocess_output
  (qs : list Request) (sched : list Label) (i : nat) (r : Req) (m : string)
  (c : Payload) :
  reqs (exec sched (init qs)) !! i = Some r ->
  hpc r = HDone (mkResponse 200 (BFile m c)) ->
  exists p, inference (input r) = inr p /\ written p = Some c.
Proof.
  intros Hi Hh. destruct (reachable_inv qs sched) as [_ Hall].
  assert (Hr : req_inv r) by (eapply Forall_lookup_1; eassumption).
  destruct Hr as (_ & _ & Hresp & _). unfold response_inv in Hresp.
  rewrite Hh in Hresp. unfold error_response, jsonify in Hresp.
  destruct (wpc r); open_hyps; try discriminate;
    match goal with
    | H : mkResponse _ _ = mkResponse _ _ |- _ => injection H as -> ->; eauto
    end.
Qed.

(** ** C8 *)

(** Like [exec_stable], for schedules that never expire the wait of
    request [i]. *)
Lemma exec_stable_no_timeout (P : Req -> Prop) (i : nat) :
  (forall n nb r r' n', P r -> worker_step n nb r = Some (r', n') -> P r') ->
  (forall r r', P r -> handler_step r = Some r' -> P r') ->
  forall sched s r, no_timeout i sched -> reqs s !! i = Some r -> P r ->
    exists r', reqs (exec sched s) !! i = Some r' /\ P r'.
Proof.
  intros HW HH. induction sched as [|l sched IH]; intros s r Hnt Hi HP.
  - exists r. split; assumption.
  - assert (Hnt' : no_timeout i sched).
    { intros l' Hl'. apply Hnt. right. exact Hl'. }
    rewrite exec_cons. unfold step_or_stay.
    destruct (step l s) as [s'|] eqn:Hs; [|eapply IH; eassumption].
    destruct l as [j|j|j]; simpl in Hs;
      destruct (reqs s !! j) as [rj|] eqn:Hj; simpl in Hs; try discriminate.
    + destruct (worker_step (sem s) (count_if busy (reqs s)) rj) as [[r' n']|] eqn:Hw;
        simpl in Hs; [|discriminate].
      injection Hs as <-.
      destruct (decide (j = i)) as [->|Hne].
      * rewrite Hi in Hj. injection Hj as <-.
        apply (IH _ r' Hnt'); [eapply lookup_insert_same; exact Hi|eauto].
      * apply (IH _ r Hnt'); [|exact HP]. simpl.
        rewrite list_lookup_insert_ne; assumption.
    + destruct (handler_step rj) as [r'|] eqn:Hh; simpl in Hs; [|discriminate].
      injection Hs as <-.
      destruct (decide (j = i)) as [->|Hne].
      * rewrite Hi in Hj. injection Hj as <-.
        apply (IH _ r' Hnt'); [eapply lookup_insert_same; exact Hi|eauto].
      * apply (IH _ r Hnt'); [|exact HP]. simpl.
        rewrite list_lookup_insert_ne; assumption.
    + destruct (timeout_step rj) as [r'|] eqn:Hh; simpl in Hs; [|discriminate].
      injection Hs as <-.
      destruct (decide (j = i)) as [->|Hne].
      * exfalso. apply (Hnt (Timeout i)); [left; reflexivity|reflexivity].
      * apply (IH _ r Hnt'); [|exact HP]. simpl.
        rewrite list_lookup_insert_ne; assumption.
Qed.

Lemma worker_step_input (n nb : nat) (r r' : Req) (n' : nat) :
  worker_step n nb r = Some (r', n') -> input r' = input r.
Proof.
  unfold worker_step. break_req r. destruct w; try discriminate; intros Hs.
  - destruct (nb <? MAX_WORKERS)%nat; [|discriminate]. injection Hs as <- <-. reflexivity.
  - destruct n; [discriminate|]. injection Hs as <- <-. reflexivity.
  - injection Hs as <- <-. reflexivity.
  - injection Hs as <- <-. reflexivity.
  - injection Hs as <- <-. reflexivity.
  - injection Hs as <- <-. destruct cb; reflexivity.
Qed.

Lemma handler_step_input (r r' : Req) :
  handler_step r = Some r' -> input r' = input r.
Proof.
  unfold handler_step. break_req r. destruct h; try discriminate; intros Hs.
  - destruct (negb (has_video inp) || negb (has_audio inp));
      injection Hs as <-; reflexivity.
  - injection Hs as <-; reflexivity.
  - destruct f; injection Hs as <-; reflexivity.
  - destruct f as [[e|u]|]; try discriminate;
      try destruct (is_timeout_error e); injection Hs as <-; reflexivity.
  - injection Hs as <-; reflexivity.
Qed.

Lemma timeout_step_input (r r' : Req) :
  timeout_step r = Some r' -> input r' = input r.
Proof.
  unfold timeout_step. break_req r. destruct h; try discriminate.
  destruct f; try discriminate. intros Hs. injection Hs as <-. reflexivity.
Qed.

Lemma worker_step_hpc (n nb : nat) (r r' : Req) (n' : nat) :
  worker_step n nb r = Some (r', n') -> hpc r' = hpc r.
Proof.
  unfold worker_step. break_req r. destruct w; try discriminate; intros Hs.
  - destruct (nb <? MAX_WORKERS)%nat; [|discriminate]. injection Hs as <- <-. reflexivity.
  - destruct n; [discriminate|]. injection Hs as <- <-. reflexivity.
  - injection Hs as <- <-. reflexivity.
  - injection Hs as <- <-. reflexivity.
  - injection Hs as <- <-. reflexivity.
  - injection Hs as <- <-. destruct cb; reflexivity.
Qed.

(** Without an expiry of its wait, the handler of a job whose exception,
    if any, is not a [TimeoutError] never answers 504; the request keeps
    its input and its invariant. *)
Lemma not_timed_out_stable (q : Request) (i : nat) (sched : list Label)
  (s : State) (r : Req) :
  (forall e, process_video_body (inference q) = inl e -> is_timeout_error e = false) ->
  no_timeout i sched -> reqs s !! i = Some r ->
  req_inv r /\ input r = q /\ hpc r <> HDone timeout_response ->
  exists r', reqs (exec sched s) !! i = Some r'
             /\ req_inv r' /\ input r' = q /\ hpc r' <> HDone timeout_response.
Proof.
  intros Hnot.
  apply (exec_stable_no_timeout
           (fun r => req_inv r /\ input r = q /\ hpc r <> HDone timeout_response)).
  - intros n nb r0 r' n' (Hinv & Hq & Hh) Hw.
    split; [eapply worker_step_inv; eassumption|].
    split; [rewrite (worker_step_input _ _ _ _ _ Hw); exact Hq|].
    rewrite (worker_step_hpc _ _ _ _ _ Hw). exact Hh.
  - intros r0 r' (Hinv & Hq & Hh) Hs.
    split; [eapply handler_step_inv; eassumption|].
    split; [rewrite (handler_step_input _ _ Hs); exact Hq|].
    destruct Hinv as (Hw & _). unfold worker_inv, outcome in Hw.
    unfold handler_step, send_file in Hs.
    destruct r0 as [inp h w f cb wsp cr rl pa pr]; simpl in *.
    unfold timeout_response, error_response, jsonify in *.
    destruct h; try discriminate.
    + destruct (negb (has_video inp) || negb (has_audio inp));
        injection Hs as <-; simpl; discriminate.
    + injection Hs as <-; simpl; discriminate.
    + destruct f; injection Hs as <-; simpl; discriminate.
    + destruct f as [[e|u]|]; try discriminate.
      * assert (He : is_timeout_error e = false).
        { apply Hnot. subst inp. destruct w; open_hyps; congruence. }
        rewrite He in Hs. injection Hs as <-. simpl. discriminate.
      * injection Hs as <-. simpl. discriminate.
    + injection Hs as <-; simpl. destruct wsp as [|[c|]]; discriminate.
Qed.

Lemma next_label_no_timeout (s : State) (l : Label) (i : nat) :
  next_label s = Some l -> l <> Timeout i.
Proof.
  unfold next_label, candidates. intros H. apply find_some in H as [Hin _].
  apply in_app_or in Hin as [Hin|Hin]; apply in_map_iff in Hin as (j & <- & _);
    discriminate.
Qed.

Lemma drain_no_timeout (i fuel : nat) (s : State) :
  no_timeout i (drain_sched fuel s).
Proof.
  revert s. induction fuel as [|fuel IH]; intros s l Hl; simpl in Hl; [contradiction|].
  destruct (next_label s) as [l0|] eqn:Hn; [|contradiction].
  destruct Hl as [<-|Hl].
  - eapply next_label_no_timeout; exact Hn.
  - eapply IH; exact Hl.
Qed.

(** What a handler that submitted a failing job can have answered. *)
Lemma failed_job_responses (r : Req) (e : exn) (resp : Response) :
  req_inv r -> outcome r = inl e -> hpc r = HDone resp -> wpc r <> WNone ->
  resp = error_response (str_exn e) 500 \/ resp = timeout_response.
Proof.
  unfold req_inv, worker_inv, response_inv, timeout_response.
  intros (Hw & _ & Hr & _) Ho Hh Hn. rewrite Hh in Hr. rewrite Ho in Hw.
  destruct (wpc r); crush.
Qed.

(** C8, as stated, fails: the handler's wait expires, the job raises
    afterwards; the exception is in the future, the caller has 504 and
    never gets a 500. *)
Lemma C8_counterexample :
  reqs (exec c2_sched (init [bad_request])) !! 0%nat = Some c2_req
  /\ fut c2_req = Some (inl (Exception_ "Inference failed: CUDA error"))
  /\ response (exec c2_sched (init [bad_request])) 0 = Some timeout_response
  /\ status timeout_response <> 500.
Proof. repeat split. discriminate. Qed.

(** C8, amended. Media-sync: in a reachable state, for a request whose
    job body raises [e], the future is pending or holds [e]; once the
    pool thread is past the job, it holds [e] and the permit is back; a
    handler that has answered after submitting the job has answered 500
    with [str(e)] or 504. For an [e] that is not a [TimeoutError]: a
    handler whose wait has not expired answers nothing but 500 with
    [str(e)] along any schedule that does not expire it, and is answered
    so by the draining schedule. Completion: with the engine ready and a
    non-empty [messages] list, an exception raised by the
    [SamplingParams] constructor or by the engine is answered 500 with
    the envelope carrying its message. *)
Theorem C8_job_exceptions_captured
  (qs : list Request) (sched : list Label) (i : nat) (r : Req) (e : exn) :
  let s := exec sched (init qs) in
  reqs s !! i = Some r -> outcome r = inl e ->
  (fut r = None \/ fut r = Some (inl e))
  /\ (wpc r = WCallbacks \/ wpc r = WDone ->
      fut r = Some (inl e) /\ permits_released r = 1%nat)
  /\ (forall resp, hpc r = HDone resp -> wpc r <> WNone ->
      resp = error_response (str_exn e) 500 \/ resp = timeout_response)
  /\ (is_timeout_error e = false -> hpc r <> HDone timeout_response ->
      forall sched' r'' resp, no_timeout i sched' ->
        reqs (exec sched' s) !! i = Some r'' ->
        hpc r'' = HDone resp -> wpc r'' <> WNone ->
        resp = error_response (str_exn e) 500)
  /\ (is_timeout_error e = false -> hpc r <> HDone timeout_response ->
      has_video (input r) = true -> has_audio (input r) = true ->
      response (exec (drain_sched (rank s) s) s) i
      = Some (error_response (str_exn e) 500))
  /\ (forall engine env items m ms,
        assoc "messages" items = Some (JArr (m :: ms)) ->
        (forall e', Deepseek.sampling_params_raises env = Some e' ->
           Deepseek.chat_completions engine true env (Some (JObj items))
           = (Deepseek.error_500 e', []))
        /\ (forall sp e', Deepseek.sampling_params_raises env = None ->
           sp = Deepseek.mkSamplingParams
                  (Deepseek.field_or items "temperature" (JFloat (7 # 10)))
                  (Deepseek.field_or items "top_p" (JFloat (1 # 1)))
                  (Deepseek.field_or items "max_tokens" (JInt 150)) ->
           engine (JArr (m :: ms)) sp = inl e' ->
           Deepseek.chat_completions engine true env (Some (JObj items))
           = (Deepseek.error_500 e', [Deepseek.EvGenerate (JArr (m :: ms)) sp]))).
Proof.
  intros s Hi Ho.
  pose proof (reachable_inv qs sched) as Hinv. fold s in Hinv.
  assert (Hr : req_inv r) by (destruct Hinv; eapply Forall_lookup_1; eassumption).
  assert (Hlater : is_timeout_error e = false -> hpc r <> HDone timeout_response ->
      forall sched' r'' resp, no_timeout i sched' ->
        reqs (exec sched' s) !! i = Some r'' ->
        hpc r'' = HDone resp -> wpc r'' <> WNone ->
        resp = error_response (str_exn e) 500).
  { intros Hne Hnt sched' r'' resp Hno Hi'' Hh'' Hw''.
    destruct (not_timed_out_stable (input r) i sched' s r) as (r2 & Hi2 & Hr2 & Hq2 & Hnt2);
      [|exact Hno|exact Hi|auto|].
    { intros e0 He0. unfold outcome in Ho. rewrite Ho in He0.
      injection He0 as <-. exact Hne. }
    rewrite Hi'' in Hi2. injection Hi2 as <-.
    assert (Ho'' : outcome r'' = inl e) by (unfold outcome in *; rewrite Hq2; exact Ho).
    destruct (failed_job_responses r'' e resp Hr2 Ho'' Hh'' Hw'') as [H|H];
      [exact H|]. exfalso. apply Hnt2. rewrite Hh'', H. reflexivity. }
  split; [|split; [|split; [|split; [|split]]]].
  - destruct Hr as (Hw & _). unfold worker_inv in Hw. rewrite Ho in Hw.
    destruct (wpc r); crush.
  - intros Hpc. destruct Hr as (Hw & _). unfold worker_inv in Hw. rewrite Ho in Hw.
    destruct Hpc as [Hpc|Hpc]; rewrite Hpc in Hw; crush.
  - intros resp Hh Hn. eapply failed_job_responses; eassumption.
  - exact Hlater.
  - intros Hne Hnt Hv Ha.
    set (sched' := drain_sched (rank s) s).
    destruct (not_timed_out_stable (input r) i sched' s r)
      as (r2 & Hi2 & Hr2 & Hq2 & Hnt2);
      [|apply drain_no_timeout|exact Hi|auto|].
    { intros e0 He0. unfold outcome in Ho. rewrite Ho in He0.
      injection He0 as <-. exact Hne. }
    assert (Hfin : finished r2 = true).
    { eapply (drain_finishes (rank s) s Hinv); [lia|exact Hi2]. }
    unfold response. fold sched'. rewrite Hi2.
    unfold finished in Hfin.
    destruct (hpc r2) as [| | | | |resp] eqn:Hh2; try discriminate.
    assert (Hw2 : wpc r2 <> WNone).
    { intros Hw2. destruct Hr2 as (_ & _ & Hresp & _).
      unfold response_inv in Hresp. rewrite Hh2, Hw2, Hq2 in Hresp.
      destruct Hresp as [_ [H|H]]; congruence. }
    f_equal. eapply (Hlater Hne Hnt sched' r2 resp); try eassumption.
    apply drain_no_timeout.
  - intros engine env items m ms Hm.
    pose proof (chat_on_valid engine env items (JArr (m :: ms)) Hm eq_refl) as Hc.
    split.
    + intros e' He'. rewrite Hc, He'. reflexivity.
    + intros sp e' Hnone Hsp He'. rewrite Hc, Hnone. cbv zeta.
      rewrite <- Hsp, He'. reflexivity.
Qed.

Lemma C8_witness :
  reqs (exec c8_sched (init [bad_request])) !! 0%nat = Some c8_req
  /\ response (exec (drain_sched (rank (exec c8_sched (init [bad_request])))
                                 (exec c8_sched (init [bad_request])))
                    (exec c8_sched (init [bad_request]))) 0
     = Some (error_response "Inference failed: CUDA error" 500).
Proof.
  split; [reflexivity|].
  pose proof (C8_job_exceptions_captured [bad_request] c8_sched 0%nat c8_req
                (Exception_ "Inference failed: CUDA error")) as H.
  cbv zeta in H.
  destruct (H eq_refl eq_refl) as (_ & _ & _ & _ & Hd & _).
  apply Hd; [reflexivity|discriminate|reflexivity|reflexivity].
Defined.

(** ** C9 *)

(** C9, as stated, fails: the media-sync handler answers a request
    without its audio part with 400 and a body whose "error" is a plain
    string, not an object with "message" and "type". *)
Lemma C9_counterexample :
  response (exec [Handler 0%nat]
              (init [mkRequest true false "/tmp/latentsync_ef" "142"
                       (inr (mkProcResult 0 (inr "") None))])) 0
  = Some (jsonify (JObj [("error", JStr "Both video and audio files are required")]) 400)
  /\ is_error_envelope
       (JObj [("error", JStr "Both video and audio files are required")]) = false.
Proof. split; reflexivity. Qed.

Lemma deepseek_failure_shape
  (engine : json -> Deepseek.SamplingParams -> exn + list Deepseek.RequestOutput)
  (engine_ready : bool) (env : Deepseek.Env) (request_body : option json) :
  let resp := fst (Deepseek.chat_completions engine engine_ready env request_body) in
  status resp = 200
  \/ exists j, body resp = BJson j
       /\ is_error_with_message j = true
       /\ (status resp = 503 \/ status resp = 500 \/ status resp = 400)
       /\ (status resp = 503 \/ status resp = 500 -> is_error_envelope j = true).
Proof.
  unfold Deepseek.chat_completions.
  destruct engine_ready; cbn [negb].
  2:{ right. eexists. split; [reflexivity|]. repeat split; auto. }
  destruct (Deepseek.chat_completions_try engine env request_body) as [[e|r] t] eqn:Htry;
    cbn [fst].
  { right. eexists. split; [reflexivity|]. repeat split; auto. }
  unfold Deepseek.chat_completions_try in Htry.
  assert (H400 : forall msg,
    r = jsonify (JObj [("error", JObj [("message", JStr msg)])]) 400 ->
    status r = 200
    \/ exists j, body r = BJson j
         /\ is_error_with_message j = true
         /\ (status r = 503 \/ status r = 500 \/ status r = 400)
         /\ (status r = 503 \/ status r = 500 -> is_error_envelope j = true)).
  { intros msg ->. right. eexists. split; [reflexivity|].
    split; [reflexivity|]. split; [auto|]. intros [H|H]; discriminate. }
  destruct request_body as [data|].
  2:{ injection Htry as <- <-. eapply H400. reflexivity. }
  destruct (truthy data); cbn [negb] in Htry.
  2:{ injection Htry as <- <-. eapply H400. reflexivity. }
  destruct (dict_get data "messages" (JArr [])) as [e|messages];
    cbn [Deepseek.lift Deepseek.bind] in Htry; [discriminate|].
  destruct (truthy messages); cbn [negb] in Htry.
  2:{ injection Htry as <- <-. eapply H400. reflexivity. }
  destruct (Deepseek.optional_parameters data) as [e|params];
    cbn [Deepseek.lift Deepseek.bind] in Htry; [discriminate|].
  destruct (Deepseek.make_sampling_params env params) as [e|sp];
    cbn [Deepseek.lift Deepseek.bind] in Htry; [discriminate|].
  destruct (Deepseek.generate_completion engine env messages sp) as [[e|j] t'];
    cbn in Htry; [discriminate|].
  injection Htry as <- <-. left. reflexivity.
Qed.

Lemma zonos_failure_shape (synthesize : string -> exn + list Byte.byte)
  (request_json : exn + json) (tmp : string) :
  let resp := fst (Zonos.text_to_speech synthesize request_json tmp) in
  status resp = 200
  \/ exists msg, resp = jsonify (JObj [("error", JStr msg)]) (status resp)
       /\ (status resp = 400 \/ status resp = 500).
Proof.
  unfold Zonos.text_to_speech, Zonos.text_to_speech_try,
    Zonos.bind, Zonos.lift, Zonos.emit, Zonos.ret.
  destruct request_json as [e|data]; simpl; [right; eauto|].
  destruct (dict_get data "text" (JStr "")) as [e|text]; simpl; [right; eauto|].
  destruct (Zonos.py_strip text) as [e|[|c stripped]]; simpl;
    [right; eauto|right; eauto|].
  destruct (synthesize _) as [e|wav]; simpl; [right; eauto|left; reflexivity].
Qed.

Lemma latentsync_failure_shape (r : Req) (resp : Response) :
  req_inv r -> hpc r = HDone resp ->
  status resp = 200
  \/ exists msg, resp = jsonify (JObj [("error", JStr msg)]) (status resp)
       /\ (status resp = 400 \/ status resp = 500 \/ status resp = 504).
Proof.
  unfold req_inv, response_inv. intros (_ & _ & Hr & _) Hh. rewrite Hh in Hr.
  unfold error_response in Hr.
  destruct (wpc r); open_hyps; subst; simpl; eauto 8.
Qed.

(** C9, amended. Every answer of the completion, media-sync and
    text-to-speech handlers other than 200 is a JSON object with an
    "error" key. In the completion handler the value is an object with a
    "message" string, and for 503 and 500 it is the full envelope with
    "message" and "type". In the media-sync handler (400, 500, 504) and
    the text-to-speech handler (400, 500) the value is the message
    string itself. *)
Theorem C9_error_bodies
  (engine : json -> Deepseek.SamplingParams -> exn + list Deepseek.RequestOutput)
  (engine_ready : bool) (env : Deepseek.Env) (request_body : option json)
  (synthesize : string -> exn + list Byte.byte)
  (request_json : exn + json) (tmp : string)
  (qs : list Request) (sched : list Label) (i : nat) :
  (let resp := fst (Deepseek.chat_completions engine engine_ready env request_body) in
   status resp = 200
   \/ exists j, body resp = BJson j
        /\ is_error_with_message j = true
        /\ (status resp = 503 \/ status resp = 500 \/ status resp = 400)
        /\ (status resp = 503 \/ status resp = 500 -> is_error_envelope j = true))
  /\ (let resp := fst (Zonos.text_to_speech synthesize request_json tmp) in
      status resp = 200
      \/ exists msg, resp = jsonify (JObj [("error", JStr msg)]) (status resp)
           /\ (status resp = 400 \/ status resp = 500))
  /\ (forall resp, response (exec sched (init qs)) i = Some resp ->
      status resp = 200
      \/ exists msg, resp = jsonify (JObj [("error", JStr msg)]) (status resp)
           /\ (status resp = 400 \/ status resp = 500 \/ status resp = 504)).
Proof.
  split; [apply deepseek_failure_shape|]. split; [apply zonos_failure_shape|].
  intros resp Hresp. unfold response in Hresp.
  destruct (reqs (exec sched (init qs)) !! i) as [r|] eqn:Hi; [|discriminate].
  destruct (hpc r) as [| | | | |resp'] eqn:Hh; try discriminate.
  injection Hresp as ->.
  apply (latentsync_failure_shape r resp); [|exact Hh].
  destruct (reachable_inv qs sched) as [_ Hall].
  eapply Forall_lookup_1; eassumption.
Qed.

Lemma C9_witness :
  (exists msg,
     error_response "Inference failed: CUDA error" 500
     = jsonify (JObj [("error", JStr msg)]) 500)
  /\ response (exec (c8_sched ++ [Worker 0; Handler 0]%nat) (init [bad_request])) 0
     = Some (error_response "Inference failed: CUDA error" 500).
Proof.
  assert (Hresp : response (exec (c8_sched ++ [Worker 0; Handler 0]%nat)
                              (init [bad_request])) 0
                  = Some (error_response "Inference failed: CUDA error" 500))
    by reflexivity.
  split; [|exact Hresp].
  destruct (C9_error_bodies Deepseek.echo_engine true Deepseek.env0 None
              Zonos.beep (inr JNull) "/tmp/t.wav"
              [bad_request] (c8_sched ++ [Worker 0; Handler 0]%nat) 0%nat)
    as (_ & _ & H).
  destruct (H _ Hresp) as [H200|(msg & Hmsg & _)]; [discriminate H200|].
  exists msg. exact Hmsg.
Defined.

(** * Properties beyond the claims *)

(** ** Media-sync: the thread pool *)

Lemma worker_step_busy (n nb : nat) (r r' : Req) (n' : nat) :
  worker_step n nb r = Some (r', n') ->
  (ind (busy r') <= ind (busy r))%nat
  \/ ((nb < MAX_WORKERS)%nat /\ busy r = false).
Proof.
  unfold worker_step, busy. break_req r.
  destruct w; try discriminate; intros Hs.
  - destruct (nb <? MAX_WORKERS)%nat eqn:Hnb; [|discriminate].
    right. split; [apply Nat.ltb_lt; exact Hnb|reflexivity].
  - destruct n; [discriminate|]. injection Hs as <- <-. left. simpl. lia.
  - injection Hs as <- <-. left. simpl. lia.
  - injection Hs as <- <-. left. simpl. lia.
  - injection Hs as <- <-. left. simpl. lia.
  - injection Hs as <- <-. left. destruct cb; simpl; lia.
Qed.

Lemma handler_step_busy (r r' : Req) :
  handler_step r = Some r' -> (ind (busy r') <= ind (busy r))%nat.
Proof.
  unfold handler_step, busy. break_req r.
  destruct h; try discriminate; intros Hs.
  - destruct (negb (has_video inp) || negb (has_audio inp));
      injection Hs as <-; simpl; lia.
  - injection Hs as <-. simpl. destruct w; simpl; lia.
  - destruct f; injection Hs as <-; simpl; lia.
  - destruct f as [[e|u]|]; try discriminate;
      try destruct (is_timeout_error e); injection Hs as <-; simpl; lia.
  - injection Hs as <-; simpl; lia.
Qed.

Lemma timeout_step_busy (r r' : Req) :
  timeout_step r = Some r' -> busy r' = busy r.
Proof.
  unfold timeout_step, busy. break_req r.
  destruct h; try discriminate. destruct f; try discriminate.
  intros Hs. injection Hs as <-. reflexivity.
Qed.

Lemma step_busy_bound (l : Label) (s s' : State) :
  step l s = Some s' ->
  (count_if busy (reqs s) <= MAX_WORKERS)%nat ->
  (count_if busy (reqs s') <= MAX_WORKERS)%nat.
Proof.
  intros Hs Hb.
  destruct l as [i|i|i]; simpl in Hs;
    destruct (reqs s !! i) as [r|] eqn:Hi; simpl in Hs; try discriminate.
  - destruct (worker_step (sem s) (count_if busy (reqs s)) r) as [[r' n']|] eqn:Hw;
      simpl in Hs; [|discriminate].
    injection Hs as <-. simpl.
    pose proof (count_if_insert busy (reqs s) i r r' Hi) as Hc.
    destruct (worker_step_busy _ _ _ _ _ Hw) as [Hle|[Hlt Hf]].
    + lia.
    + rewrite Hf in Hc. unfold ind in Hc at 1. destruct (busy r'); simpl in Hc; lia.
  - destruct (handler_step r) as [r'|] eqn:Hh; simpl in Hs; [|discriminate].
    injection Hs as <-. simpl.
    pose proof (count_if_insert busy (reqs s) i r r' Hi).
    pose proof (handler_step_busy _ _ Hh). lia.
  - destruct (timeout_step r) as [r'|] eqn:Hh; simpl in Hs; [|discriminate].
    injection Hs as <-. simpl.
    pose proof (count_if_insert busy (reqs s) i r r' Hi) as Hc.
    rewrite (timeout_step_busy _ _ Hh) in Hc. lia.
Qed.

Lemma init_no_busy (qs : list Request) : count_if busy (reqs (init qs)) = 0%nat.
Proof. induction qs as [|q qs IH]; simpl in *; [reflexivity|exact IH]. Qed.

Lemma exec_busy_bound (sched : list Label) (s : State) :
  (count_if busy (reqs s) <= MAX_WORKERS)%nat ->
  (count_if busy (reqs (exec sched s)) <= MAX_WORKERS)%nat.
Proof.
  revert s. induction sched as [|l sched IH]; intros s Hb; [exact Hb|].
  rewrite exec_cons. apply IH. unfold step_or_stay.
  destruct (step l s) as [s'|] eqn:Hs; [|exact Hb].
  eapply step_busy_bound; eassumption.
Qed.

(** X1. At most four work items occupy pool threads in any reachable
    state, and while four do, a queued item cannot start. *)
Theorem pool_threads_bounded (qs : list Request) (sched : list Label) :
  let s := exec sched (init qs) in
  (count_if busy (reqs s) <= 4)%nat
  /\ (forall i r, reqs s !! i = Some r -> wpc r = WQueued ->
        count_if busy (reqs s) = 4%nat -> step (Worker i) s = None).
Proof.
  intros s. split.
  - apply (exec_busy_bound sched (init qs)). rewrite init_no_busy.
    unfold MAX_WORKERS. lia.
  - intros i r Hi Hw Hfull. unfold step. rewrite Hi. simpl.
    unfold worker_step. rewrite Hw, Hfull. reflexivity.
Qed.

Lemma pool_threads_bounded_witness :
  count_if busy (reqs (exec five_started (init five_requests))) = 4%nat
  /\ step (Worker 4) (exec five_started (init five_requests)) = None.
Proof.
  split; [reflexivity|].
  destruct (pool_threads_bounded five_requests five_started) as [_ H].
  eapply (H 4%nat); reflexivity.
Defined.

(** ** Media-sync: the semaphore as a gate *)

(** X2. In a reachable state, a work item waiting at [with gpu_semaphore]
    can enter exactly when fewer than two items are inside. *)
Theorem acquire_enabled_iff_permit_free
  (qs : list Request) (sched : list Label) (i : nat) (r : Req) :
  let s := exec sched (init qs) in
  reqs s !! i = Some r -> wpc r = WAcquire ->
  (enabled s (Worker i) = true <-> (count_if holding (reqs s) < 2)%nat).
Proof.
  intros s Hi Hw.
  destruct (reachable_inv qs sched) as [Hsem _]. fold s in Hsem.
  unfold GPU_PERMITS in Hsem.
  unfold enabled, step. rewrite Hi. simpl. unfold worker_step. rewrite Hw.
  destruct (sem s) as [|n] eqn:Hn; simpl; split; intros H;
    try discriminate; try reflexivity; lia.
Qed.

Lemma acquire_enabled_iff_permit_free_witness :
  enabled (exec c1_sched (init [good_request; bad_request; good_request]))
          (Worker 2) = false
  /\ count_if holding
       (reqs (exec c1_sched (init [good_request; bad_request; good_request])))
     = 2%nat.
Proof.
  split; [|reflexivity].
  pose proof (acquire_enabled_iff_permit_free
                [good_request; bad_request; good_request] c1_sched 2%nat
                (mkReq good_request HAddCallback WAcquire None false
                       (WsPresent None) 1 0 0 0) eq_refl eq_refl) as [H _].
  destruct (enabled _ (Worker 2)) eqn:He; [|reflexivity].
  specialize (H eq_refl). vm_compute in H. lia.
Defined.

(** ** Media-sync: progress and termination *)

Lemma find_all_false {A} (f : A -> bool) (l : list A) :
  (forall x, In x l -> f x = false) -> List.find f l = None.
Proof.
  induction l as [|a l IH]; intros H; simpl; [reflexivity|].
  rewrite (H a (or_introl eq_refl)). apply IH. intros x Hx. apply H. right. exact Hx.
Qed.

(** X3. No deadlock: a reachable state in which no handler and no work
    item can move (expiry of a wait is not counted as a move) has
    finished every request: each has its response, and its work item, if
    one was submitted, is over. *)
Theorem no_deadlock (qs : list Request) (sched : list Label) :
  let s := exec sched (init qs) in
  (forall i, enabled s (Handler i) = false /\ enabled s (Worker i) = false) ->
  forall i r, reqs s !! i = Some r ->
    finished r = true /\ exists resp, response s i = Some resp.
Proof.
  intros s Hdis i r Hi.
  assert (Hn : next_label s = None).
  { unfold next_label, candidates. apply find_all_false. intros l Hl.
    apply in_app_or in Hl as [Hl|Hl]; apply in_map_iff in Hl as (j & <- & _);
      apply Hdis. }
  assert (Hf : finished r = true).
  { eapply stuck_finished; [apply reachable_inv|exact Hn|exact Hi]. }
  split; [exact Hf|]. unfold response. rewrite Hi.
  unfold finished in Hf. destruct (hpc r); try discriminate. eauto.
Qed.

Lemma no_deadlock_witness :
  finished c2_req = true
  /\ exists resp, response (exec c2_sched (init [bad_request])) 0 = Some resp.
Proof.
  apply (no_deadlock [bad_request] c2_sched); [|reflexivity].
  intros [|i]; split; reflexivity.
Defined.

Lemma moves_rank (sched : list Label) (s : State) :
  (moves sched s + rank (exec sched s) <= rank s)%nat.
Proof.
  revert s. induction sched as [|l sched IH]; intros s; [simpl; lia|].
  rewrite exec_cons. unfold step_or_stay. cbn [moves].
  destruct (step l s) as [s'|] eqn:Hs; [|apply IH].
  pose proof (step_rank _ _ _ Hs). specialize (IH s'). lia.
Qed.

Lemma rank_init (qs : list Request) : rank (init qs) = (12 * length qs)%nat.
Proof.
  unfold rank, init. cbn [reqs].
  induction qs as [|q qs IH]; [reflexivity|].
  cbn [map sum_with length]. rewrite IH.
  unfold rank_req, new_req. cbn [hpc wpc hrank wrank]. lia.
Qed.

(** X4. Termination: whatever the schedule, at most twelve moves are made
    per request; the moves made plus the moves still possible never
    exceed that bound. *)
Theorem moves_bounded (qs : list Request) (sched : list Label) :
  (moves sched (init qs) + rank (exec sched (init qs)) <= 12 * length qs)%nat.
Proof. rewrite <- rank_init. apply moves_rank. Qed.

(** ** Media-sync: what a request can be answered *)

(** The state of a request that lacks a file part. *)
Lemma missing_part_stable (q : Request) (sched : list Label) (s : State)
  (i : nat) (r : Req) :
  negb (has_video q) || negb (has_audio q) = true ->
  reqs s !! i = Some r ->
  (input r = q /\ wpc r = WNone /\ fut r = None /\ ws r = WsAbsent
   /\ ws_created r = 0%nat /\ permits_acquired r = 0%nat
   /\ (hpc r = HStart \/ hpc r = HDone missing_part_response)) ->
  exists r', reqs (exec sched s) !! i = Some r'
    /\ input r' = q /\ wpc r' = WNone /\ fut r' = None /\ ws r' = WsAbsent
    /\ ws_created r' = 0%nat /\ permits_acquired r' = 0%nat
    /\ (hpc r' = HStart \/ hpc r' = HDone missing_part_response).
Proof.
  intros Hmiss.
  apply (exec_stable (fun r =>
    input r = q /\ wpc r = WNone /\ fut r = None /\ ws r = WsAbsent
    /\ ws_created r = 0%nat /\ permits_acquired r = 0%nat
    /\ (hpc r = HStart \/ hpc r = HDone missing_part_response))).
  - intros n nb r0 r' n' (_ & Hw & _) Hs. unfold worker_step in Hs.
    rewrite Hw in Hs. discriminate.
  - intros r0 r' (Hq & Hw & Hf & Hws & Hc & Hp & Hh) Hs. unfold handler_step in Hs.
    destruct Hh as [Hh|Hh]; rewrite Hh in Hs; [|discriminate].
    rewrite Hq, Hmiss in Hs. injection Hs as <-. simpl.
    unfold missing_part_response. auto 10.
  - intros r0 r' (_ & _ & _ & _ & _ & _ & Hh) Hs. unfold timeout_step in Hs.
    destruct Hh as [Hh|Hh]; rewrite Hh in Hs; discriminate.
Qed.

(** X6. A request without its video part or without its audio part never
    gets a temporary directory, a work item or a permit, along any
    schedule; it is unanswered until its first handler step and answered
    400 "Both video and audio files are required" from then on. *)
Theorem missing_part_rejected_without_effects
  (qs : list Request) (sched : list Label) (i : nat) (q : Request) :
  qs !! i = Some q ->
  has_video q = false \/ has_audio q = false ->
  exists r, reqs (exec sched (init qs)) !! i = Some r
    /\ wpc r = WNone /\ fut r = None /\ ws r = WsAbsent
    /\ ws_created r = 0%nat /\ permits_acquired r = 0%nat
    /\ (hpc r = HStart \/ hpc r = HDone missing_part_response)
    /\ response (exec (sched ++ [Handler i]) (init qs)) i
       = Some missing_part_response.
Proof.
  intros Hq Hmiss.
  assert (Hm : negb (has_video q) || negb (has_audio q) = true).
  { destruct Hmiss as [H|H]; rewrite H; simpl; [reflexivity|apply orb_true_r]. }
  assert (Hi0 : reqs (init qs) !! i = Some (new_req q)).
  { simpl. rewrite list_lookup_fmap, Hq. reflexivity. }
  destruct (missing_part_stable q sched (init qs) i (new_req q) Hm Hi0)
    as (r & Hi & Hin & Hw & Hf & Hws & Hc & Hp & Hh).
  { simpl. auto 10. }
  exists r. repeat (split; [assumption|]).
  rewrite exec_app, exec_cons. simpl exec.
  set (s := exec sched (init qs)) in *.
  destruct Hh as [Hh|Hh].
  - erewrite (step_or_stay_some (Handler i) s).
    2:{ eapply step_handler_at; [exact Hi|].
        unfold handler_step. rewrite Hh, Hin, Hm. reflexivity. }
    unfold response. simpl. erewrite lookup_insert_same by exact Hi. reflexivity.
  - unfold step_or_stay, step. rewrite Hi. simpl.
    unfold handler_step. rewrite Hh. simpl.
    unfold response. rewrite Hi, Hh. reflexivity.
Qed.

Lemma missing_part_rejected_without_effects_witness :
  exists r,
    reqs (exec [Worker 0; Handler 1; Timeout 0]%nat
            (init [mkRequest true false "/tmp/latentsync_ef" "142"
                     (inr (mkProcResult 0 (inr "") None)); good_request])) !! 0%nat
    = Some r
    /\ wpc r = WNone /\ fut r = None /\ ws r = WsAbsent
    /\ ws_created r = 0%nat /\ permits_acquired r = 0%nat
    /\ (hpc r = HStart \/ hpc r = HDone missing_part_response)
    /\ response (exec ([Worker 0; Handler 1; Timeout 0]%nat ++ [Handler 0%nat])
            (init [mkRequest true false "/tmp/latentsync_ef" "142"
                     (inr (mkProcResult 0 (inr "") None)); good_request])) 0
       = Some missing_part_response.
Proof.
  apply (missing_part_rejected_without_effects
           [mkRequest true false "/tmp/latentsync_ef" "142"
              (inr (mkProcResult 0 (inr "") None)); good_request]
           [Worker 0; Handler 1; Timeout 0]%nat 0%nat
           (mkRequest true false "/tmp/latentsync_ef" "142"
              (inr (mkProcResult 0 (inr "") None)))).
  - reflexivity.
  - right. reflexivity.
Defined.

(** X7. Whenever the media-sync handler answers 200, along any schedule,
    the subprocess exited with return code 0, the job's future holds its
    normal result, and the body is exactly the file the subprocess wrote
    at the output path, served as video/mp4. *)
Theorem ok_response_is_subprocess_output
  (qs : list Request) (sched : list Label) (i : nat) (resp : Response) :
  response (exec sched (init qs)) i = Some resp -> status resp = 200 ->
  exists r p c,
    reqs (exec sched (init qs)) !! i = Some r
    /\ inference (input r) = inr p /\ returncode p = 0 /\ written p = Some c
    /\ fut r = Some (inr tt)
    /\ resp = mkResponse 200 (BFile "video/mp4" c).
Proof.
  unfold response. intros Hresp Hst.
  destruct (reqs (exec sched (init qs)) !! i) as [r|] eqn:Hi; [|discriminate].
  destruct (hpc r) as [| | | | |resp'] eqn:Hh; try discriminate.
  injection Hresp as ->.
  destruct (reachable_inv qs sched) as [_ Hall].
  assert (Hr : req_inv r) by (eapply Forall_lookup_1; eassumption).
  destruct Hr as (Hw & _ & Hresp & _).
  unfold response_inv in Hresp. rewrite Hh in Hresp.
  unfold worker_inv, outcome in Hw.
  assert (Hcases :
    exists p c, inference (input r) = inr p /\ written p = Some c
                /\ fut r = Some (inr tt)
                /\ resp = mkResponse 200 (BFile "video/mp4" c)).
  { unfold error_response, jsonify in Hresp.
    destruct (wpc r); open_hyps; subst; simpl in Hst; try discriminate; eauto 8. }
  destruct Hcases as (p & c & Hinf & Hwr & Hfut & ->).
  assert (Hrc0 : returncode p = 0).
  { rewrite Hinf in Hw. unfold process_video_body in Hw.
    destruct (returncode p =? 0) eqn:Hrc; [apply Z.eqb_eq; exact Hrc|].
    rewrite Hfut in Hw.
    destruct (stderr p); destruct (wpc r); open_hyps; discriminate. }
  exists r, p, c. auto 10.
Qed.

Lemma ok_response_is_subprocess_output_witness :
  exists r p c,
    reqs (exec [Handler 0; Handler 0; Handler 0;
                Worker 0; Worker 0; Worker 0; Worker 0; Worker 0;
                Handler 0; Handler 0; Worker 0]%nat (init [good_request])) !! 0%nat
    = Some r
    /\ inference (input r) = inr p /\ returncode p = 0 /\ written p = Some c
    /\ fut r = Some (inr tt)
    /\ mkResponse 200 (BFile "video/mp4" mp4)
       = mkResponse 200 (BFile "video/mp4" c).
Proof.
  apply (ok_response_is_subprocess_output [good_request]
           [Handler 0; Handler 0; Handler 0;
            Worker 0; Worker 0; Worker 0; Worker 0; Worker 0;
            Handler 0; Handler 0; Worker 0]%nat 0%nat
           (mkResponse 200 (BFile "video/mp4" mp4))); reflexivity.
Defined.

Lemma resolved_stable (o : exn + unit) (i : nat) (sched : list Label)
  (s : State) (r : Req) :
  match o with inl e => is_timeout_error e = false | inr _ => True end ->
  reqs s !! i = Some r ->
  req_inv r /\ fut r = Some o /\ hpc r <> HDone timeout_response ->
  exists r', reqs (exec sched s) !! i = Some r'
    /\ req_inv r' /\ fut r' = Some o /\ hpc r' <> HDone timeout_response.
Proof.
  intros Ho.
  apply (exec_stable (fun r =>
    req_inv r /\ fut r = Some o /\ hpc r <> HDone timeout_response)).
  - intros n nb r0 r' n' (Hinv & Hf0 & Hh0) Hw.
    split; [eapply worker_step_inv; eassumption|].
    rewrite (worker_step_hpc _ _ _ _ _ Hw). split; [|exact Hh0].
    destruct Hinv as (Hwi & _). unfold worker_inv in Hwi.
    unfold worker_step in Hw.
    destruct r0 as [inp h w f cb wsp cr rl pa pr]; simpl in *.
    destruct w; open_hyps; try congruence.
    injection Hw as <- <-. destruct cb; simpl; congruence.
  - intros r0 r' (Hinv & Hf0 & Hh0) Hs.
    split; [eapply handler_step_inv; eassumption|].
    unfold handler_step, send_file in Hs.
    destruct r0 as [inp h w f cb wsp cr rl pa pr]; simpl in *.
    unfold timeout_response, error_response, jsonify in *.
    destruct h; try discriminate.
    + destruct (negb (has_video inp) || negb (has_audio inp));
        injection Hs as <-; simpl; split; auto; discriminate.
    + injection Hs as <-; simpl; split; auto; discriminate.
    + subst f. injection Hs as <-; simpl; split; auto; discriminate.
    + subst f. destruct o as [e|u].
      * rewrite Ho in Hs. injection Hs as <-. simpl. split; auto; discriminate.
      * injection Hs as <-. simpl. split; auto; discriminate.
    + injection Hs as <-; simpl. split; auto.
      destruct wsp as [|[c|]]; discriminate.
  - intros r0 r' (_ & Hf0 & _) Hs. unfold timeout_step in Hs.
    destruct (hpc r0); try discriminate. rewrite Hf0 in Hs. discriminate.
Qed.

(** X8. In a reachable state, a job that is over with an outcome other
    than a [TimeoutError] is never reported as timed out: once the future
    holds the normal result or such an exception and the handler has not
    answered 504, no schedule makes it answer 504. A job that raised a
    [TimeoutError] is reported as timed out although it is over: the
    waiting handler's next step answers 504 "Processing timeout". *)
Theorem resolved_job_504_only_for_timeout_error
  (qs : list Request) (sched0 : list Label) (i : nat) (r : Req) :
  let s := exec sched0 (init qs) in
  reqs s !! i = Some r ->
  (forall o sched,
     fut r = Some o ->
     match o with inl e => is_timeout_error e = false | inr _ => True end ->
     hpc r <> HDone timeout_response ->
     response (exec sched s) i <> Some timeout_response)
  /\ (forall e, fut r = Some (inl e) -> is_timeout_error e = true ->
      hpc r = HWait ->
      response (exec [Handler i] s) i = Some timeout_response).
Proof.
  intros s Hi. split.
  - intros o sched Hf Ho Hh.
    assert (Hr : req_inv r).
    { destruct (reachable_inv qs sched0) as [_ Hall].
      eapply Forall_lookup_1; eassumption. }
    destruct (resolved_stable o i sched s r Ho Hi) as (r' & Hi' & _ & _ & Hh'); [auto|].
    unfold response. rewrite Hi'. destruct (hpc r') eqn:E; try discriminate.
    intros H. injection H as ->. apply Hh'. reflexivity.
  - intros e Hf He Hh.
    rewrite exec_cons. simpl exec.
    erewrite (step_or_stay_some (Handler i) s).
    2:{ eapply step_handler_at; [exact Hi|].
        unfold handler_step. rewrite Hh, Hf, He. reflexivity. }
    unfold response. simpl. erewrite lookup_insert_same by exact Hi. reflexivity.
Qed.

Lemma resolved_job_504_only_for_timeout_error_witness :
  response (exec [Timeout 0; Handler 0; Timeout 0]%nat
              (exec c8_sched (init [bad_request]))) 0
  <> Some timeout_response
  /\ response (exec [Handler 0%nat] (exec c8_sched (init [timing_out_request]))) 0
     = Some timeout_response.
Proof.
  split.
  - destruct (resolved_job_504_only_for_timeout_error [bad_request] c8_sched
                0%nat c8_req eq_refl) as [H _].
    apply (H (inl (Exception_ "Inference failed: CUDA error")));
      [reflexivity|reflexivity|discriminate].
  - destruct (resolved_job_504_only_for_timeout_error [timing_out_request] c8_sched
                0%nat
                (mkReq timing_out_request HWait WCallbacks
                   (Some (inl (TimeoutError_ "[Errno 110] Connection timed out")))
                   true (WsPresent None) 1 0 1 1) eq_refl) as [_ H].
    apply (H (TimeoutError_ "[Errno 110] Connection timed out")); reflexivity.
Defined.

(** X9. When every request of a reachable state is finished, the
    semaphore is back at 2 and no pool thread is occupied; every request
    whose job was submitted, and every request that lacked a file part,
    has no temporary directory left and has given back the permit it
    took. (A request whose upload could not be saved is outside the
    model: the handler's [save] calls are taken to succeed.) *)
Theorem finished_state_is_clean (qs : list Request) (sched : list Label) :
  let s := exec sched (init qs) in
  (forall i r, reqs s !! i = Some r -> finished r = true) ->
  sem s = 2%nat
  /\ count_if busy (reqs s) = 0%nat
  /\ (forall i r, reqs s !! i = Some r ->
        wpc r <> WNone
        \/ has_video (input r) = false \/ has_audio (input r) = false ->
        ws r = WsAbsent /\ permits_released r = permits_acquired r).
Proof.
  intros s Hfin. destruct (reachable_inv qs sched) as [Hsem Hall]. fold s in Hsem, Hall.
  assert (Hhold : count_if holding (reqs s) = 0%nat).
  { apply count_if_zero. intros i r Hi. specialize (Hfin i r Hi).
    unfold finished in Hfin. unfold holding.
    destruct (hpc r), (wpc r); try discriminate; reflexivity. }
  split; [unfold GPU_PERMITS in Hsem; lia|]. split.
  - apply count_if_zero. intros i r Hi. specialize (Hfin i r Hi).
    unfold finished in Hfin. unfold busy.
    destruct (hpc r), (wpc r); try discriminate; reflexivity.
  - intros i r Hi _. specialize (Hfin i r Hi).
    assert (Hr : req_inv r) by (eapply Forall_lookup_1; eassumption).
    destruct (finished_released r Hr Hfin) as [Heq _].
    destruct Hr as (Hw & _ & _ & Hws).
    unfold ws_inv in Hws. unfold worker_inv in Hw. unfold finished in Hfin.
    split.
    + destruct (ws r); [reflexivity|]. destruct Hws as (H1 & H0 & _). lia.
    + destruct (hpc r), (wpc r); try discriminate; crush.
Qed.

Lemma finished_state_is_clean_witness :
  sem (exec c2_sched (init [bad_request])) = 2%nat
  /\ count_if busy (reqs (exec c2_sched (init [bad_request]))) = 0%nat
  /\ ws c2_req = WsAbsent.
Proof.
  destruct (finished_state_is_clean [bad_request] c2_sched) as (H1 & H2 & H3).
  - intros [|i] r Hi; vm_compute in Hi; [|discriminate].
    injection Hi as <-. reflexivity.
  - split; [assumption|]. split; [assumption|].
    apply (H3 0%nat c2_req); [reflexivity|left; discriminate].
Defined.

(** ** Media-sync: the files of a request *)

Lemma append_inj_l (a b c : string) : a ++ b = a ++ c -> b = c.
Proof.
  induction a as [|x a IH]; simpl; intros H; [exact H|].
  injection H as H. apply IH. exact H.
Qed.

Lemma prefix_append (a b : string) : String.prefix a (a ++ b) = true.
Proof.
  induction a as [|x a IH]; simpl; [destruct b; reflexivity|].
  destruct (ascii_dec x x) as [_|Hne]; [exact IH|contradiction].
Qed.

Lemma os_path_join_relative (a b : string) :
  starts_with_slash b = false ->
  exists sep, os_path_join a b = a ++ sep ++ b /\ (sep = "" \/ sep = "/").
Proof.
  intros Hb. unfold os_path_join. rewrite Hb.
  destruct (String.eqb a "" || ends_with_slash a).
  - exists "". split; [reflexivity|left; reflexivity].
  - exists "/". split; [reflexivity|right; reflexivity].
Qed.

(** X10. The uploaded video, the uploaded audio and the output of a
    request are three different files inside the request's own temporary
    directory, whatever the directory name and the object ids: the
    subprocess cannot overwrite an input with its output. *)
Theorem request_files_distinct (q : Request) (audio_id : string) :
  video_path q <> output_path_joined q
  /\ audio_path q audio_id <> output_path_joined q
  /\ video_path q <> audio_path q audio_id
  /\ String.prefix (temp_dir q) (video_path q) = true
  /\ String.prefix (temp_dir q) (audio_path q audio_id) = true
  /\ String.prefix (temp_dir q) (output_path_joined q) = true
  /\ (temp_dir q <> "" -> ends_with_slash (temp_dir q) = false ->
      output_path_joined q = output_path q).
Proof.
  unfold video_path, audio_path, output_path_joined.
  destruct (os_path_join_relative (temp_dir q) ("input_video_" ++ video_id q ++ ".mp4"))
    as (s1 & -> & Hs1); [reflexivity|].
  destruct (os_path_join_relative (temp_dir q) ("input_audio_" ++ audio_id ++ ".wav"))
    as (s2 & -> & Hs2); [reflexivity|].
  unfold os_path_join. cbn [starts_with_slash append].
  repeat split.
  - intros H. destruct (String.eqb (temp_dir q) "" || ends_with_slash (temp_dir q));
      destruct Hs1 as [-> | ->]; apply append_inj_l in H; discriminate.
  - intros H. destruct (String.eqb (temp_dir q) "" || ends_with_slash (temp_dir q));
      destruct Hs2 as [-> | ->]; apply append_inj_l in H; discriminate.
  - intros H. destruct Hs1 as [-> | ->]; destruct Hs2 as [-> | ->];
      apply append_inj_l in H; discriminate.
  - apply prefix_append.
  - apply prefix_append.
  - destruct (String.eqb (temp_dir q) "" || ends_with_slash (temp_dir q));
      apply prefix_append.
  - intros Hne Hend. rewrite Hend.
    destruct (String.eqb (temp_dir q) "") eqn:He.
    + apply String.eqb_eq in He. contradiction.
    + reflexivity.
Qed.

Lemma request_files_distinct_witness :
  output_path_joined good_request = output_path good_request
  /\ video_path good_request <> output_path_joined good_request.
Proof.
  destruct (request_files_distinct good_request "141")
    as (H1 & _ & _ & _ & _ & _ & H7).
  split; [apply H7; [discriminate|reflexivity]|exact H1].
Defined.

(** ** Completion: bodies that are not what the handler expects *)

(** X11. With the engine ready, a body that does not parse, or parses to
    a falsy value (null, false, 0, 0.0, the empty string, list or
    object), is answered 400 "Invalid JSON"; a body that parses to a
    truthy value other than an object (a non-empty list or string, a
    number, true) is answered 500 with the message of the failed
    [data.get]. In neither case is the engine called. *)
Theorem unexpected_body_never_reaches_engine
  (engine : Deepseek.Engine) (env : Deepseek.Env) (data : json) :
  Deepseek.chat_completions engine true env None = (Deepseek.invalid_json_response, [])
  /\ (truthy data = false ->
      Deepseek.chat_completions engine true env (Some data)
      = (Deepseek.invalid_json_response, []))
  /\ (truthy data = true -> (forall items, data <> JObj items) ->
      Deepseek.chat_completions engine true env (Some data)
      = (jsonify (JObj [("error", JObj
           [("message", JStr ("'" ++ type_name data ++ "' object has no attribute 'get'"));
            ("type", JStr "server_error")])]) 500, [])).
Proof.
  split; [reflexivity|]. split.
  - intros Hf. unfold Deepseek.chat_completions, Deepseek.chat_completions_try.
    rewrite Hf. reflexivity.
  - intros Ht Hno. unfold Deepseek.chat_completions, Deepseek.chat_completions_try.
    rewrite Ht. cbn [negb].
    destruct data; try reflexivity. exfalso. eapply Hno. reflexivity.
Qed.

Lemma unexpected_body_never_reaches_engine_witness :
  Deepseek.chat_completions Deepseek.echo_engine true Deepseek.env0
    (Some (JArr [JObj [("role", JStr "user")]]))
  = (jsonify (JObj [("error", JObj
       [("message", JStr "'list' object has no attribute 'get'");
        ("type", JStr "server_error")])]) 500, []).
Proof.
  destruct (unexpected_body_never_reaches_engine Deepseek.echo_engine Deepseek.env0
              (JArr [JObj [("role", JStr "user")]])) as (_ & _ & H).
  apply H; [reflexivity|discriminate].
Defined.

(** ** Completion: when the engine is called *)

Lemma calls_when_validated (engine : Deepseek.Engine) (env : Deepseek.Env)
  (items : list (string * json)) (msgs : json) :
  assoc "messages" items = Some msgs -> truthy msgs = true ->
  Deepseek.sampling_params_raises env = None ->
  exists sp,
    snd (Deepseek.chat_completions engine true env (Some (JObj items)))
    = [Deepseek.EvGenerate msgs sp].
Proof.
  intros Hm Ht Hc.
  rewrite (chat_on_valid engine env items msgs Hm Ht), Hc. cbv zeta.
  eexists.
  destruct (engine msgs _) as [e|[|result rest]]; [reflexivity|reflexivity|].
  destruct (Deepseek.outputs result) as [|o os]; reflexivity.
Qed.

Lemma no_calls_when_constructor_raises (engine : Deepseek.Engine)
  (env : Deepseek.Env) (items : list (string * json)) (msgs : json) (e : exn) :
  assoc "messages" items = Some msgs -> truthy msgs = true ->
  Deepseek.sampling_params_raises env = Some e ->
  snd (Deepseek.chat_completions engine true env (Some (JObj items))) = [].
Proof.
  intros Hm Ht Hc.
  rewrite (chat_on_valid engine env items msgs Hm Ht), Hc. reflexivity.
Qed.

Lemma no_calls_when_rejected (engine : Deepseek.Engine) (env : Deepseek.Env)
  (items : list (string * json)) :
  match assoc "messages" items with
  | Some msgs => truthy msgs = false
  | None => True
  end ->
  snd (Deepseek.chat_completions engine true env (Some (JObj items))) = [].
Proof.
  intros Hm.
  unfold Deepseek.chat_completions, Deepseek.chat_completions_try.
  destruct items as [|kv rest]; [reflexivity|].
  cbn [truthy negb]. unfold dict_get at 1. cbn [Deepseek.lift Deepseek.bind].
  destruct (assoc "messages" (kv :: rest)) as [msgs|].
  - rewrite Hm. reflexivity.
  - reflexivity.
Qed.

(** X12. The engine is called at most once per request, and it is called
    exactly when the engine is ready, the body is a JSON object, its
    [messages] value is truthy and the [SamplingParams] constructor
    accepts the sampling arguments; the [messages] value is passed on as
    it is, list or not. *)
Theorem engine_called_iff_ready_messages_and_params
  (engine : Deepseek.Engine) (engine_ready : bool) (env : Deepseek.Env)
  (request_body : option json) :
  let calls := snd (Deepseek.chat_completions engine engine_ready env request_body) in
  (length calls <= 1)%nat
  /\ (calls <> [] <->
      engine_ready = true
      /\ Deepseek.sampling_params_raises env = None
      /\ exists items msgs, request_body = Some (JObj items)
           /\ assoc "messages" items = Some msgs /\ truthy msgs = true)
  /\ (forall items msgs, request_body = Some (JObj items) ->
        assoc "messages" items = Some msgs -> calls <> [] ->
        exists sp, calls = [Deepseek.EvGenerate msgs sp]).
Proof.
  intros calls.
  assert (Hcases :
    (calls = []
     /\ ~ (engine_ready = true
           /\ Deepseek.sampling_params_raises env = None
           /\ exists items msgs, request_body = Some (JObj items)
                /\ assoc "messages" items = Some msgs /\ truthy msgs = true))
    \/ (engine_ready = true
        /\ Deepseek.sampling_params_raises env = None
        /\ exists items msgs sp, request_body = Some (JObj items)
             /\ assoc "messages" items = Some msgs /\ truthy msgs = true
             /\ calls = [Deepseek.EvGenerate msgs sp])).
  { unfold calls. destruct engine_ready.
    2:{ left. split; [reflexivity|]. intros [H _]. discriminate. }
    destruct request_body as [data|].
    2:{ left. split; [reflexivity|].
        intros (_ & _ & items & msgs & H & _). discriminate. }
    destruct data as [|b|z|q|str|l|items];
      try (left; split;
           [unfold Deepseek.chat_completions, Deepseek.chat_completions_try;
            match goal with |- context [truthy ?d] => destruct (truthy d) end;
            reflexivity
           |intros (_ & _ & items & msgs & H & _); discriminate]).
    destruct (assoc "messages" items) as [msgs|] eqn:Hm.
    - destruct (truthy msgs) eqn:Ht.
      + destruct (Deepseek.sampling_params_raises env) as [e|] eqn:Hc.
        * left. split.
          -- eapply no_calls_when_constructor_raises; eassumption.
          -- intros (_ & H & _). discriminate.
        * right. split; [reflexivity|]. split; [reflexivity|].
          destruct (calls_when_validated engine env items msgs Hm Ht Hc) as [sp Hsp].
          exists items, msgs, sp. auto.
      + left. split.
        * apply no_calls_when_rejected. rewrite Hm. exact Ht.
        * intros (_ & _ & items' & msgs' & H & Hm' & Ht'). injection H as <-.
          congruence.
    - left. split.
      + apply no_calls_when_rejected. rewrite Hm. exact I.
      + intros (_ & _ & items' & msgs' & H & Hm' & Ht'). injection H as <-.
        congruence. }
  destruct Hcases as [[Hc Hno]|(Hr & Hp & items & msgs & sp & Hb & Hm & Ht & Hc)];
    rewrite Hc.
  - split; [simpl; lia|]. split; [split; [congruence|intros H; contradiction]|].
    intros; congruence.
  - split; [simpl; lia|]. split; [split; [intros _; eauto 10|discriminate]|].
    intros items' msgs' H Hm' _. rewrite Hb in H. injection H as <-.
    rewrite Hm in Hm'. injection Hm' as <-. eauto.
Qed.

Lemma engine_called_iff_ready_messages_and_params_witness :
  (exists sp,
     snd (Deepseek.chat_completions Deepseek.echo_engine true Deepseek.env0
            (Some (JObj [("messages", JStr "hi")])))
     = [Deepseek.EvGenerate (JStr "hi") sp])
  /\ snd (Deepseek.chat_completions Deepseek.echo_engine true Deepseek.env_rejecting
            (Some (JObj [("messages", JStr "hi"); ("temperature", JInt (-1))])))
     = [].
Proof.
  split.
  - destruct (engine_called_iff_ready_messages_and_params Deepseek.echo_engine true
                Deepseek.env0 (Some (JObj [("messages", JStr "hi")])))
      as (_ & _ & H).
    apply (H [("messages", JStr "hi")] (JStr "hi")); [reflexivity|reflexivity|].
    discriminate.
  - destruct (engine_called_iff_ready_messages_and_params Deepseek.echo_engine true
                Deepseek.env_rejecting
                (Some (JObj [("messages", JStr "hi"); ("temperature", JInt (-1))])))
      as (_ & [H _] & _).
    destruct (snd (Deepseek.chat_completions Deepseek.echo_engine true
                     Deepseek.env_rejecting
                     (Some (JObj [("messages", JStr "hi");
                                  ("temperature", JInt (-1))])))) as [|c cs];
      [reflexivity|].
    destruct (H ltac:(discriminate)) as (_ & Hc & _). discriminate Hc.
Defined.

(** ** Completion: the answer built from the engine's results *)

Lemma assoc_default (k : string) (items : list (string * json)) (d : json) :
  dict_get (JObj items) k d
  = inr (match assoc k items with Some v => v | None => d end).
Proof. reflexivity. Qed.

(** X13. With the engine ready and truthy [messages], when the engine
    yields at least one result whose first element has at least one
    output, the answer is 200 and is built from that first output alone:
    its text is the assistant message, [finish_reason] is "stop" if the
    result is finished and "length" otherwise, the usage total is the sum
    of prompt and completion tokens, the id is "chatcmpl-" followed by
    the request id, and [model] is "deepseek-v3" whatever model the
    request named. Further results and outputs are ignored. *)
Theorem completion_answer_from_first_output
  (engine : Deepseek.Engine) (env : Deepseek.Env)
  (items : list (string * json)) (msgs : json) (sp : Deepseek.SamplingParams)
  (result : Deepseek.RequestOutput) (more_results : list Deepseek.RequestOutput)
  (o : Deepseek.CompletionOutput) (more_outputs : list Deepseek.CompletionOutput) :
  assoc "messages" items = Some msgs -> truthy msgs = true ->
  snd (Deepseek.chat_completions engine true env (Some (JObj items)))
    = [Deepseek.EvGenerate msgs sp] ->
  engine msgs sp = inr (result :: more_results) ->
  Deepseek.outputs result = o :: more_outputs ->
  exists j choice usage,
    fst (Deepseek.chat_completions engine true env (Some (JObj items)))
      = jsonify j 200
    /\ jget "id" j = Some (JStr ("chatcmpl-" ++ Deepseek.request_id env))
    /\ jget "model" j = Some (JStr "deepseek-v3")
    /\ jget "created" j = Some (JInt (Deepseek.now env))
    /\ jget "choices" j = Some (JArr [choice])
    /\ jget "message" choice
       = Some (JObj [("role", JStr "assistant");
                     ("content", JStr (Deepseek.text o))])
    /\ jget "finish_reason" choice
       = Some (JStr (if Deepseek.finished result then "stop" else "length"))
    /\ jget "usage" j = Some usage
    /\ jget "prompt_tokens" usage
       = Some (JInt (Deepseek.prompt_token_count result))
    /\ jget "completion_tokens" usage
       = Some (JInt (Z.of_nat (length (Deepseek.token_ids o))))
    /\ jget "total_tokens" usage
       = Some (JInt (Deepseek.prompt_token_count result
                     + Z.of_nat (length (Deepseek.token_ids o)))).
Proof.
  intros Hm Ht Hcalls He Ho. revert Hcalls.
  rewrite (chat_on_valid engine env items msgs Hm Ht).
  destruct (Deepseek.sampling_params_raises env) as [e|]; [discriminate|].
  cbv zeta.
  match goal with
  | |- context [engine msgs ?sp0] => set (sp' := sp0)
  end.
  intros Hcalls.
  assert (Hsp : sp' = sp).
  { destruct (engine msgs sp') as [e|[|r0 rest]]; cbn in Hcalls;
      try (injection Hcalls as H; exact H).
    destruct (Deepseek.outputs r0); cbn in Hcalls; injection Hcalls as H; exact H. }
  rewrite Hsp, He, Ho. cbn [fst].
  eexists _, _, _. repeat split.
Qed.

Lemma completion_answer_from_first_output_witness :
  exists j choice usage,
    fst (Deepseek.chat_completions Deepseek.echo_engine true Deepseek.env0
           (Some (JObj [("messages", JArr [JStr "hi"]); ("model", JStr "gpt-4")])))
      = jsonify j 200
    /\ jget "id" j = Some (JStr ("chatcmpl-" ++ Deepseek.request_id Deepseek.env0))
    /\ jget "model" j = Some (JStr "deepseek-v3")
    /\ jget "created" j = Some (JInt (Deepseek.now Deepseek.env0))
    /\ jget "choices" j = Some (JArr [choice])
    /\ jget "message" choice
       = Some (JObj [("role", JStr "assistant"); ("content", JStr "ok")])
    /\ jget "finish_reason" choice = Some (JStr "stop")
    /\ jget "usage" j = Some usage
    /\ jget "prompt_tokens" usage = Some (JInt 3)
    /\ jget "completion_tokens" usage = Some (JInt 2)
    /\ jget "total_tokens" usage = Some (JInt (3 + 2)).
Proof.
  apply (completion_answer_from_first_output Deepseek.echo_engine Deepseek.env0
           [("messages", JArr [JStr "hi"]); ("model", JStr "gpt-4")]
           (JArr [JStr "hi"])
           (Deepseek.mkSamplingParams (JFloat (7 # 10)) (JFloat (1 # 1)) (JInt 150))
           (Deepseek.mkRequestOutput [Deepseek.mkCompletionOutput "ok" [1; 2]] true 3)
           [] (Deepseek.mkCompletionOutput "ok" [1; 2]) []); reflexivity.
Defined.

(** X14. With the engine ready and truthy [messages], an engine that
    yields no result is answered 500 "No results from model", and a first
    result without outputs is answered 500 "list index out of range";
    both carry the full error envelope, and the engine was called once. *)
Theorem degenerate_results_are_500
  (engine : Deepseek.Engine) (env : Deepseek.Env)
  (items : list (string * json)) (msgs : json) (sp : Deepseek.SamplingParams) :
  assoc "messages" items = Some msgs -> truthy msgs = true ->
  snd (Deepseek.chat_completions engine true env (Some (JObj items)))
    = [Deepseek.EvGenerate msgs sp] ->
  (engine msgs sp = inr [] ->
   fst (Deepseek.chat_completions engine true env (Some (JObj items)))
   = jsonify (JObj [("error", JObj [("message", JStr "No results from model");
                                    ("type", JStr "server_error")])]) 500)
  /\ (forall result rest, engine msgs sp = inr (result :: rest) ->
        Deepseek.outputs result = [] ->
        fst (Deepseek.chat_completions engine true env (Some (JObj items)))
        = jsonify (JObj [("error", JObj [("message", JStr "list index out of range");
                                         ("type", JStr "server_error")])]) 500).
Proof.
  intros Hm Ht.
  rewrite (chat_on_valid engine env items msgs Hm Ht).
  destruct (Deepseek.sampling_params_raises env) as [e|]; [discriminate|].
  cbv zeta.
  match goal with
  | |- context [engine msgs ?sp0] => set (sp' := sp0)
  end.
  intros Hcalls.
  assert (Hsp : sp' = sp).
  { destruct (engine msgs sp') as [e|[|r0 rest]]; cbn in Hcalls;
      try (injection Hcalls as H; exact H).
    destruct (Deepseek.outputs r0); cbn in Hcalls; injection Hcalls as H; exact H. }
  rewrite Hsp. split.
  - intros He. rewrite He. reflexivity.
  - intros result rest He Ho. rewrite He, Ho. reflexivity.
Qed.

Lemma degenerate_results_are_500_witness :
  fst (Deepseek.chat_completions Deepseek.empty_engine true Deepseek.env0
         (Some (JObj [("messages", JArr [JStr "hi"])])))
  = jsonify (JObj [("error", JObj [("message", JStr "No results from model");
                                   ("type", JStr "server_error")])]) 500.
Proof.
  destruct (degenerate_results_are_500 Deepseek.empty_engine Deepseek.env0
              [("messages", JArr [JStr "hi"])] (JArr [JStr "hi"])
              (Deepseek.mkSamplingParams (JFloat (7 # 10)) (JFloat (1 # 1)) (JInt 150))
              eq_refl eq_refl eq_refl) as [H _].
  apply H. reflexivity.
Defined.

(** ** Completion: the readiness flag and the process *)

Lemma proc_one_inv (fea : exn + Deepseek.Engine) (p : Deepseek.Proc)
  (ev : Deepseek.ProcEvent) :
  Deepseek.proc_inv fea p -> Deepseek.proc_inv fea (fst (Deepseek.proc_one fea p ev)).
Proof.
  intros Hp. destruct ev; simpl; try exact Hp.
  unfold Deepseek.proc_inv, Deepseek.init_step in *.
  destruct p as [eng rdy pc]; simpl in *.
  destruct pc; simpl in *.
  - destruct fea as [x|e]; simpl; destruct Hp as [[Hr He] _]; subst.
    + split; [auto|]. eauto.
    + split; [eauto|]. discriminate.
  - destruct Hp as [[Hr He] _]. split; [auto|]. discriminate.
  - exact Hp.
  - exact Hp.
Qed.

Lemma proc_run_lookup (fea : exn + Deepseek.Engine) (l : list Deepseek.ProcEvent) :
  forall (p : Deepseek.Proc) (k : nat) (ev : Deepseek.ProcEvent),
  Deepseek.proc_inv fea p -> l !! k = Some ev ->
  exists p', Deepseek.proc_inv fea p'
    /\ snd (Deepseek.proc_run fea p l) !! k
       = Some (snd (Deepseek.proc_one fea p' ev)).
Proof.
  induction l as [|x l IH]; intros p [|k] ev Hp Hk; simpl in *; try discriminate.
  - injection Hk as ->.
    destruct (Deepseek.proc_one fea p ev) as [p1 r] eqn:H1.
    destruct (Deepseek.proc_run fea p1 l) as [p2 rs]. simpl.
    exists p. split; [exact Hp|]. rewrite H1. reflexivity.
  - pose proof (proc_one_inv fea p x Hp) as Hp1.
    destruct (Deepseek.proc_one fea p x) as [p1 r] eqn:H1. simpl in Hp1.
    destruct (IH p1 k ev Hp1 Hk) as (p' & Hp' & Hlk).
    destruct (Deepseek.proc_run fea p1 l) as [p2 rs]. simpl in *.
    exists p'. split; assumption.
Qed.

Lemma proc_start_inv (fea : exn + Deepseek.Engine) :
  Deepseek.proc_inv fea Deepseek.proc_start.
Proof. split; [split; reflexivity|discriminate]. Qed.

(** X17. In the running process, however the two steps of [init_engine]
    interleave with requests, the engine is never used before it exists:
    every completion request is answered either 503 "still initializing"
    without touching the engine, or exactly as [chat_completions] answers
    with the engine that [from_engine_args] returned. If
    [from_engine_args] raises, the server never becomes ready: every
    completion request and every health check is answered 503. *)
Theorem engine_used_only_after_init
  (from_engine_args : exn + Deepseek.Engine) (l : list Deepseek.ProcEvent)
  (k : nat) :
  let answers := snd (Deepseek.proc_run from_engine_args Deepseek.proc_start l) in
  (forall env request_body, l !! k = Some (Deepseek.PChat env request_body) ->
     answers !! k = Some (Some (jsonify Deepseek.not_ready_body 503))
     \/ exists e, from_engine_args = inr e
          /\ answers !! k
             = Some (Some (fst (Deepseek.chat_completions e true env request_body))))
  /\ (forall x, from_engine_args = inl x ->
      (forall env request_body, l !! k = Some (Deepseek.PChat env request_body) ->
         answers !! k = Some (Some (jsonify Deepseek.not_ready_body 503)))
      /\ (l !! k = Some Deepseek.PHealth ->
          answers !! k = Some (Some (Deepseek.health_check false)))).
Proof.
  intros answers.
  assert (Hchat : forall env request_body,
    l !! k = Some (Deepseek.PChat env request_body) ->
    exists p', Deepseek.proc_inv from_engine_args p'
      /\ answers !! k
         = Some (Some (fst (Deepseek.chat_completions (Deepseek.global_generate p')
                              (Deepseek.proc_ready p') env request_body)))).
  { intros env request_body Hk.
    destruct (proc_run_lookup from_engine_args l Deepseek.proc_start k _
                (proc_start_inv _) Hk) as (p' & Hp' & Hlk).
    exists p'. split; [exact Hp'|exact Hlk]. }
  split.
  - intros env request_body Hk.
    destruct (Hchat env request_body Hk) as (p' & [Hp' _] & ->).
    unfold Deepseek.global_generate.
    destruct (Deepseek.init_pc p'); destruct Hp' as [Hr He]; rewrite Hr.
    + left. reflexivity.
    + left. reflexivity.
    + right. destruct He as (e & Hfea & ->). exists e. split; [exact Hfea|reflexivity].
    + left. reflexivity.
  - intros x Hx. split.
    + intros env request_body Hk.
      destruct (Hchat env request_body Hk) as (p' & [Hp' _] & ->).
      destruct (Deepseek.init_pc p'); destruct Hp' as [Hr He]; rewrite Hr;
        try reflexivity.
      destruct He as (e & Hfea & _). congruence.
    + intros Hk.
      destruct (proc_run_lookup from_engine_args l Deepseek.proc_start k _
                  (proc_start_inv _) Hk) as (p' & [Hp' _] & Hlk).
      unfold answers. rewrite Hlk. simpl.
      destruct (Deepseek.init_pc p'); destruct Hp' as [Hr He]; rewrite Hr;
        try reflexivity.
      destruct He as (e & Hfea & _). congruence.
Qed.

Lemma engine_used_only_after_init_witness :
  snd (Deepseek.proc_run (inr Deepseek.echo_engine) Deepseek.proc_start
         [Deepseek.PInitStep;
          Deepseek.PChat Deepseek.env0 (Some (JObj [("messages", JArr [JStr "hi"])]))])
    !! 1%nat
  = Some (Some (jsonify Deepseek.not_ready_body 503))
  \/ exists e, inr Deepseek.echo_engine = (inr e : exn + Deepseek.Engine)
       /\ snd (Deepseek.proc_run (inr Deepseek.echo_engine) Deepseek.proc_start
                 [Deepseek.PInitStep;
                  Deepseek.PChat Deepseek.env0
                    (Some (JObj [("messages", JArr [JStr "hi"])]))])
            !! 1%nat
          = Some (Some (fst (Deepseek.chat_completions e true Deepseek.env0
                               (Some (JObj [("messages", JArr [JStr "hi"])]))))).
Proof.
  destruct (engine_used_only_after_init (inr Deepseek.echo_engine)
              [Deepseek.PInitStep;
               Deepseek.PChat Deepseek.env0
                 (Some (JObj [("messages", JArr [JStr "hi"])]))] 1%nat) as [H _].
  apply H. reflexivity.
Defined.

(** ** Text-to-speech: validation of the text *)

Lemma lstrip_empty_iff (l : list N) :
  Zonos.lstrip l = [] <-> forallb Zonos.is_space l = true.
Proof.
  induction l as [|c l IH]; simpl; [tauto|].
  destruct (Zonos.is_space c); simpl; [exact IH|].
  split; discriminate.
Qed.

Lemma lstrip_head (l : list N) :
  Zonos.lstrip l = []
  \/ exists c rest, Zonos.lstrip l = c :: rest /\ Zonos.is_space c = false.
Proof.
  induction l as [|c l IH]; simpl; [left; reflexivity|].
  destruct (Zonos.is_space c) eqn:Hc; [exact IH|]. right. eauto.
Qed.

Lemma forallb_rev_eq {A} (f : A -> bool) (l : list A) :
  forallb f (rev l) = forallb f l.
Proof.
  induction l as [|a l IH]; simpl; [reflexivity|].
  rewrite forallb_app, IH. simpl. rewrite andb_true_r. apply andb_comm.
Qed.

Lemma rev_empty {A} (l : list A) : rev l = [] -> l = [].
Proof.
  destruct l as [|a l]; [reflexivity|]. simpl. intros H.
  destruct (rev l); discriminate.
Qed.

(** [text.strip()] is empty exactly for a text of whitespace only. *)
Lemma strip_empty_iff (l : list N) :
  Zonos.strip l = [] <-> forallb Zonos.is_space l = true.
Proof.
  unfold Zonos.strip. split.
  - intros H. apply rev_empty in H. apply lstrip_empty_iff in H.
    rewrite forallb_rev_eq in H.
    destruct (lstrip_head l) as [He|(c & rest & He & Hc)].
    + apply lstrip_empty_iff. exact He.
    + rewrite He in H. simpl in H. rewrite Hc in H. discriminate.
  - intros H. apply lstrip_empty_iff in H. rewrite H. reflexivity.
Qed.

Lemma tts_on_string_text (synthesize : string -> exn + list Byte.byte)
  (items : list (string * json)) (s tmp : string) :
  Zonos.text_of items = JStr s ->
  Zonos.text_to_speech synthesize (inr (JObj items)) tmp
  = if Zonos.all_space s then (Zonos.empty_text_response, [])
    else match synthesize s with
         | inr wav =>
             (mkResponse 200 (BFile "audio/wav" wav),
              [Zonos.EvNamedTemporaryFile tmp; Zonos.EvGenerate s;
               Zonos.EvSave tmp wav; Zonos.EvSendFile tmp])
         | inl e =>
             (jsonify (JObj [("error", JStr (str_exn e))]) 500,
              [Zonos.EvNamedTemporaryFile tmp; Zonos.EvGenerate s])
         end.
Proof.
  intros Htext. unfold Zonos.text_of in Htext.
  unfold Zonos.text_to_speech, Zonos.text_to_speech_try,
    Zonos.bind, Zonos.lift, Zonos.emit, Zonos.ret.
  unfold dict_get. rewrite Htext. cbn [Zonos.py_strip].
  unfold Zonos.all_space.
  destruct (forallb Zonos.is_space (Zonos.code_points s)) eqn:Hs.
  - apply strip_empty_iff in Hs. rewrite Hs. reflexivity.
  - destruct (Zonos.strip (Zonos.code_points s)) as [|c cs] eqn:He.
    + apply strip_empty_iff in He. congruence.
    + destruct (synthesize s); reflexivity.
Qed.

Lemma tts_on_other_text (synthesize : string -> exn + list Byte.byte)
  (items : list (string * json)) (tmp : string) :
  (forall s, Zonos.text_of items <> JStr s) ->
  Zonos.text_to_speech synthesize (inr (JObj items)) tmp
  = (jsonify (JObj [("error",
       JStr ("'" ++ type_name (Zonos.text_of items)
             ++ "' object has no attribute 'strip'"))]) 500, []).
Proof.
  intros Hno.
  unfold Zonos.text_to_speech, Zonos.text_to_speech_try,
    Zonos.bind, Zonos.lift, Zonos.emit, Zonos.ret.
  unfold dict_get. fold (Zonos.text_of items).
  destruct (Zonos.text_of items) eqn:Ht; try reflexivity.
  exfalso. eapply Hno. reflexivity.
Qed.

(** X18. For a body that is a JSON object whose [text] is a string, or is
    absent (read as the empty string): if the text consists of whitespace
    code points only (ASCII blanks and control separators, but also
    U+0085, U+00A0, U+1680, U+2000-U+200A, U+2028, U+2029, U+202F,
    U+205F, U+3000) the answer is 400 "Empty text provided" and nothing
    has been done, no temporary file created and the model not called;
    otherwise the answer is not 400 and the temporary file has been
    created first. *)
Theorem blank_text_rejected_without_effects
  (synthesize : string -> exn + list Byte.byte)
  (items : list (string * json)) (s tmp : string) :
  Zonos.text_of items = JStr s ->
  let out := Zonos.text_to_speech synthesize (inr (JObj items)) tmp in
  (Zonos.all_space s = true -> out = (Zonos.empty_text_response, []))
  /\ (Zonos.all_space s = false ->
      status (fst out) <> 400
      /\ exists rest, snd out = Zonos.EvNamedTemporaryFile tmp :: rest).
Proof.
  intros Htext out. unfold out.
  rewrite (tts_on_string_text synthesize items s tmp Htext).
  split; intros Hs; rewrite Hs; [reflexivity|].
  destruct (synthesize s) as [e|wav]; cbn; split; try discriminate; eauto.
Qed.

Lemma blank_text_rejected_without_effects_witness :
  Zonos.text_to_speech Zonos.beep
    (inr (JObj [("text", JStr Zonos.nbsp_text)])) "/tmp/t.wav"
  = (Zonos.empty_text_response, []).
Proof.
  destruct (blank_text_rejected_without_effects Zonos.beep
              [("text", JStr Zonos.nbsp_text)] Zonos.nbsp_text "/tmp/t.wav" eq_refl)
    as [H _].
  apply H. reflexivity.
Defined.

(** X19. Input of the wrong shape is answered 500, not 400, with the
    message of the exception and without any effect: a body that
    [get_json] rejects, a body that is JSON but not an object (the
    failed [data.get]), and a [text] that is not a string, null included
    (the failed [text.strip]). *)
Theorem malformed_tts_input_is_500
  (synthesize : string -> exn + list Byte.byte) (tmp : string) :
  (forall e, Zonos.text_to_speech synthesize (inl e) tmp
             = (jsonify (JObj [("error", JStr (str_exn e))]) 500, []))
  /\ (forall data, (forall items, data <> JObj items) ->
        Zonos.text_to_speech synthesize (inr data) tmp
        = (jsonify (JObj [("error",
             JStr ("'" ++ type_name data ++ "' object has no attribute 'get'"))]) 500,
           []))
  /\ (forall items, (forall s, Zonos.text_of items <> JStr s) ->
        Zonos.text_to_speech synthesize (inr (JObj items)) tmp
        = (jsonify (JObj [("error",
             JStr ("'" ++ type_name (Zonos.text_of items)
                   ++ "' object has no attribute 'strip'"))]) 500,
           [])).
Proof.
  split; [reflexivity|]. split.
  - intros data Hno. destruct data; try reflexivity.
    exfalso. eapply Hno. reflexivity.
  - intros items Hno. apply tts_on_other_text. exact Hno.
Qed.

Lemma malformed_tts_input_is_500_witness :
  Zonos.text_to_speech Zonos.beep (inr (JObj [("text", JNull)])) "/tmp/t.wav"
  = (jsonify (JObj [("error",
       JStr "'NoneType' object has no attribute 'strip'")]) 500, []).
Proof.
  destruct (malformed_tts_input_is_500 Zonos.beep "/tmp/t.wav") as (_ & _ & H).
  apply (H [("text", JNull)]). intros s. discriminate.
Defined.

(** ** Text-to-speech: the temporary file and the audio *)

(** X20. For a text that is not blank (not made of whitespace code
    points only, ASCII or not): the model receives the text as sent, not
    the stripped one. If the model yields a wave, the answer is
    200 with exactly that wave as audio/wav, after the steps create
    file, generate, save, send. If the model raises, the answer is 500
    with the message, and the temporary file created before the model
    ran is left behind. *)
Theorem tts_outcome_follows_model
  (synthesize : string -> exn + list Byte.byte)
  (items : list (string * json)) (s tmp : string) :
  Zonos.text_of items = JStr s -> Zonos.all_space s = false ->
  let out := Zonos.text_to_speech synthesize (inr (JObj items)) tmp in
  (forall wav, synthesize s = inr wav ->
     out = (mkResponse 200 (BFile "audio/wav" wav),
            [Zonos.EvNamedTemporaryFile tmp; Zonos.EvGenerate s;
             Zonos.EvSave tmp wav; Zonos.EvSendFile tmp]))
  /\ (forall e, synthesize s = inl e ->
     out = (jsonify (JObj [("error", JStr (str_exn e))]) 500,
            [Zonos.EvNamedTemporaryFile tmp; Zonos.EvGenerate s])).
Proof.
  intros Htext Hs out. unfold out.
  rewrite (tts_on_string_text synthesize items s tmp Htext), Hs.
  split; intros x Hx; rewrite Hx; reflexivity.
Qed.

Lemma tts_outcome_follows_model_witness :
  Zonos.text_to_speech Zonos.failing_model
    (inr (JObj [("text", JStr " hi ")])) "/tmp/t.wav"
  = (jsonify (JObj [("error", JStr "CUDA out of memory")]) 500,
     [Zonos.EvNamedTemporaryFile "/tmp/t.wav"; Zonos.EvGenerate " hi "]).
Proof.
  destruct (tts_outcome_follows_model Zonos.failing_model
              [("text", JStr " hi ")] " hi " "/tmp/t.wav" eq_refl eq_refl)
    as [_ H].
  apply (H (Exception_ "CUDA out of memory")). reflexivity.
Defined.

(** X21. Whatever the request, the handler creates at most one temporary
    file, and it creates one exactly when the body is a JSON object
    whose text is a string that is not blank (has a code point that
    [str.isspace] rejects): never for a request it answers 400, nor for
    one that fails before the text is validated. *)
Theorem tts_creates_at_most_one_file
  (synthesize : string -> exn + list Byte.byte)
  (request_json : exn + json) (tmp : string) :
  let t := snd (Zonos.text_to_speech synthesize request_json tmp) in
  (count_if Zonos.is_create t <= 1)%nat
  /\ (count_if Zonos.is_create t = 1%nat <->
      exists items s, request_json = inr (JObj items)
        /\ Zonos.text_of items = JStr s /\ Zonos.all_space s = false).
Proof.
  intros t. unfold t.
  destruct request_json as [e|data].
  { cbn. split; [lia|]. split; [discriminate|].
    intros (items & s & H & _). discriminate. }
  destruct data as [|b|z|q|str|l|items];
    try (cbn; split; [lia|]; split; [discriminate|];
         intros (items' & s' & H & _); discriminate).
  destruct (Zonos.text_of items) as [|b|z|q|s|l|items0] eqn:Ht;
    try (rewrite (tts_on_other_text synthesize items tmp)
           by (intros s0; rewrite Ht; discriminate);
         cbn; split; [lia|]; split; [discriminate|];
         intros (items' & s' & Hi & Ht' & _); injection Hi as <-; congruence).
  rewrite (tts_on_string_text synthesize items s tmp Ht).
  destruct (Zonos.all_space s) eqn:Hs.
  - cbn. split; [lia|]. split; [discriminate|].
    intros (items' & s' & Hi & Ht' & Hs'). injection Hi as <-.
    rewrite Ht in Ht'. injection Ht' as <-. congruence.
  - destruct (synthesize s) as [e|wav]; cbn;
      (split; [lia|]); (split; [eauto|reflexivity]).
Qed.

(** ** Media-sync: the directory under a running job *)

Lemma insert_same_input (l : list Req) (i : nat) (r r' : Req) :
  l !! i = Some r -> input r' = input r ->
  map input (<[i := r']> l) = map input l.
Proof.
  intros Hi Hin. change (input <$> <[i := r']> l = input <$> l).
  rewrite list_fmap_insert. apply list_insert_id.
  rewrite list_lookup_fmap, Hi, Hin. reflexivity.
Qed.

Lemma step_inputs (l : Label) (s s' : State) :
  step l s = Some s' -> map input (reqs s') = map input (reqs s).
Proof.
  intros Hs.
  destruct l as [i|i|i]; simpl in Hs;
    destruct (reqs s !! i) as [r|] eqn:Hi; simpl in Hs; try discriminate.
  - destruct (worker_step (sem s) (count_if busy (reqs s)) r) as [[r' n']|] eqn:Hw;
      simpl in Hs; [|discriminate].
    injection Hs as <-. simpl.
    eapply insert_same_input; [exact Hi|eapply worker_step_input; exact Hw].
  - destruct (handler_step r) as [r'|] eqn:Hh; simpl in Hs; [|discriminate].
    injection Hs as <-. simpl.
    eapply insert_same_input; [exact Hi|eapply handler_step_input; exact Hh].
  - destruct (timeout_step r) as [r'|] eqn:Hh; simpl in Hs; [|discriminate].
    injection Hs as <-. simpl.
    eapply insert_same_input; [exact Hi|eapply timeout_step_input; exact Hh].
Qed.

(** The requests of a reachable state are those the run started with. *)
Lemma exec_inputs (qs : list Request) (sched : list Label) :
  map input (reqs (exec sched (init qs))) = qs.
Proof.
  assert (H : forall s, map input (reqs (exec sched s)) = map input (reqs s)).
  { induction sched as [|l sched IH]; intros s; [reflexivity|].
    rewrite exec_cons, IH. unfold step_or_stay.
    destruct (step l s) as [s'|] eqn:Hs; [|reflexivity].
    eapply step_inputs; exact Hs. }
  rewrite H. simpl. rewrite map_map. simpl. apply map_id.
Qed.

Lemma reachable_lookup_input (qs : list Request) (sched : list Label)
  (i : nat) (r : Req) :
  reqs (exec sched (init qs)) !! i = Some r ->
  reqs (init qs) !! i = Some (new_req (input r)).
Proof.
  intros Hi.
  assert (Hq : qs !! i = Some (input r)).
  { rewrite <- (exec_inputs qs sched).
    change ((input <$> reqs (exec sched (init qs))) !! i = Some (input r)).
    rewrite list_lookup_fmap, Hi. reflexivity. }
  simpl. rewrite list_lookup_fmap, Hq. reflexivity.
Qed.

(** After the subprocess has run, the directory, unless removed, holds
    what the subprocess wrote. *)
Lemma output_follows_subprocess (q : Request) (p : ProcResult) (c : Payload)
  (sched : list Label) (s : State) (i : nat) (r : Req) :
  inference q = inr p -> written p = Some c ->
  reqs s !! i = Some r ->
  (req_inv r /\ input r = q
   /\ match wpc r with
      | WFinally _ | WReturn _ => ws r = WsAbsent \/ ws r = WsPresent (Some c)
      | _ => True
      end) ->
  exists r', reqs (exec sched s) !! i = Some r'
    /\ req_inv r' /\ input r' = q
    /\ match wpc r' with
       | WFinally _ | WReturn _ => ws r' = WsAbsent \/ ws r' = WsPresent (Some c)
       | _ => True
       end.
Proof.
  intros Hinf Hwr.
  apply (exec_stable (fun r =>
    req_inv r /\ input r = q
    /\ match wpc r with
       | WFinally _ | WReturn _ => ws r = WsAbsent \/ ws r = WsPresent (Some c)
       | _ => True
       end)).
  - intros n nb x x' n' (Hinv & Hin & Hx) Hstep.
    split; [eapply worker_step_inv; eassumption|].
    split; [rewrite (worker_step_input _ _ _ _ _ Hstep); exact Hin|].
    clear Hinv. unfold worker_step in Hstep.
    destruct x as [inp h w f cb wsp cr rl pa pr]; simpl in *.
    destruct w; try discriminate.
    + destruct (nb <? MAX_WORKERS)%nat; [|discriminate]. injection Hstep as <- <-.
      exact I.
    + destruct n; [discriminate|]. injection Hstep as <- <-. exact I.
    + injection Hstep as <- <-. simpl.
      subst inp. rewrite Hinf. unfold write_output.
      destruct wsp; [left; reflexivity|]. rewrite Hwr. right. reflexivity.
    + injection Hstep as <- <-. exact Hx.
    + injection Hstep as <- <-. exact I.
    + injection Hstep as <- <-. destruct cb; exact I.
  - intros x x' (Hinv & Hin & Hx) Hstep.
    split; [eapply handler_step_inv; eassumption|].
    split; [rewrite (handler_step_input _ _ Hstep); exact Hin|].
    destruct Hinv as (_ & Hc & _). unfold cleanup_inv in Hc.
    unfold handler_step in Hstep.
    destruct x as [inp h w f cb wsp cr rl pa pr]; simpl in *.
    destruct h; try discriminate.
    + destruct Hc as (-> & _).
      destruct (negb (has_video inp) || negb (has_audio inp));
        injection Hstep as <-; exact I.
    + injection Hstep as <-. exact I.
    + destruct Hc as (Hw & _ & _ & Hrel).
      destruct f; injection Hstep as <-; simpl; [|exact Hx].
      destruct w; auto.
    + destruct f as [[e|u]|]; try discriminate;
        try destruct (is_timeout_error e); injection Hstep as <-; exact Hx.
    + injection Hstep as <-. exact Hx.
  - intros x x' (Hinv & Hin & Hx) Hstep.
    split; [eapply timeout_step_inv; eassumption|].
    split; [rewrite (timeout_step_input _ _ Hstep); exact Hin|].
    unfold timeout_step in Hstep.
    destruct x as [inp h w f cb wsp cr rl pa pr]; simpl in *.
    destruct h; try discriminate. destruct f; try discriminate.
    injection Hstep as <-. exact Hx.
Qed.

(** X22. The temporary directory is never removed under a job: in every
    reachable state, while the work item is queued or running (its future
    pending) the directory exists, with no removal so far; and once the
    subprocess has run, the directory holds what it wrote until the
    future is resolved. *)
Theorem directory_present_while_job_pending
  (qs : list Request) (sched : list Label) (i : nat) (r : Req) :
  reqs (exec sched (init qs)) !! i = Some r -> job_pending r = true ->
  ws_released r = 0%nat
  /\ (exists out, ws r = WsPresent out)
  /\ (forall p c, inference (input r) = inr p -> written p = Some c ->
        (exists o, wpc r = WFinally o \/ wpc r = WReturn o) ->
        ws r = WsPresent (Some c)).
Proof.
  intros Hi Hp.
  destruct (reachable_inv qs sched) as [_ Hall].
  assert (Hr : req_inv r) by (eapply Forall_lookup_1; eassumption).
  destruct Hr as (Hw & Hc & _ & Hws).
  unfold job_pending in Hp.
  unfold worker_inv, cleanup_inv, registered_inv, ws_inv in *.
  assert (H0 : ws_released r = 0%nat /\ ws_created r = 1%nat).
  { destruct (hpc r), (wpc r), (cb_registered r); try discriminate; crush. }
  destruct H0 as [Hrel Hcr].
  assert (Hpres : exists out, ws r = WsPresent out).
  { destruct (ws r) as [|out]; [lia|eauto]. }
  split; [exact Hrel|]. split; [exact Hpres|].
  intros p c Hinf Hwr (o & Ho).
  destruct (output_follows_subprocess (input r) p c sched (init qs) i
              (new_req (input r)) Hinf Hwr
              (reachable_lookup_input qs sched i r Hi))
    as (r' & Hi' & _ & _ & Hm).
  { split; [|split; [reflexivity|exact I]]. repeat split. }
  rewrite Hi in Hi'. injection Hi' as <-.
  destruct Hpres as [out Hout].
  destruct Ho as [Ho|Ho]; rewrite Ho in Hm; destruct Hm as [Hm|Hm];
    try exact Hm; congruence.
Qed.

Lemma directory_present_while_job_pending_witness :
  ws_released c3_req = 0%nat /\ exists out, ws c3_req = WsPresent out.
Proof.
  destruct (directory_present_while_job_pending [good_request] c3_sched 0%nat c3_req
              eq_refl eq_refl) as (H1 & H2 & _).
  split; assumption.
Defined.
